(** * validate_orders.py: row validation, partitioning and reporting

    A shallow embedding of [src/validate_orders.py].  The script reads a
    table of orders, validates every row against the [AmazonOrder] schema,
    splits the rows into a valid and an invalid list, writes both lists,
    raises an alert when a row is invalid and exits with 0 or 1.

    The script is top-level code with effects (prints, two files, one HTTP
    call, the exit status).  The effects are collected in a record
    ([Outcome]); the loop over the rows is a left fold that threads the two
    lists and the printed lines. *)

From Stdlib Require Import ZArith QArith Ascii String List Bool Lia.
From Stdlib Require Import DecimalString.
From stdpp Require Import gmap strings list fin_maps.


(** ** Values of a raw row

    [row.to_dict()] maps every column name to the cell as pandas read it:
    text, an integer, a boolean or a float (an empty cell is the float
    nan).  A finite float is kept as the rational it denotes: the schema
    only looks at its sign, at whether it is integral and at its size. *)

Inductive pyfloat :=
| FNum (q : Q)
| FInf (negative : bool)
| FNan.

Inductive PyValue :=
| PyStr (s : string)
| PyInt (z : Z)
| PyBool (b : bool)
| PyFloat (f : pyfloat).

Abbreviation Row := (gmap string PyValue).

(** A result that is either a value or an error, for code that raises. *)
Inductive result (E A : Type) :=
| Ok (a : A)
| Err (e : E).
Arguments Ok {E A} a.
Arguments Err {E A} e.

#[global] Instance result_ret {E} : MRet (result E) := fun _ a => Ok a.

#[global] Instance result_bind {E} : MBind (result E) := fun _ _ k r =>
  match r with
  | Ok a => k a
  | Err e => Err e
  end.

Definition is_ok {E A} (r : result E A) : bool :=
  match r with Ok _ => true | Err _ => false end.

(** ** Validation errors

    Validation is in lax mode (the default).  Each failure has a type, as
    pydantic names it; [value_error] carries the text of a [ValueError]
    raised by one of the script's own validators. *)

Inductive ErrorType :=
| missing
| string_type
| string_too_short
| int_type
| int_parsing
| int_parsing_size
| int_from_float
| finite_number
| float_type
| float_parsing
| greater_than_equal
| value_error (text : string).

Record ErrorDetails := { loc : string; err : ErrorType }.

(** [error['msg']] *)
Definition msg (e : ErrorDetails) : string :=
  match err e with
  | missing => "Field required"
  | string_type => "Input should be a valid string"
  | string_too_short => "String should have at least 1 character"
  | int_type => "Input should be a valid integer"
  | int_parsing =>
      "Input should be a valid integer, unable to parse string as an integer"
  | int_parsing_size =>
      "Unable to parse input string as an integer, exceeded maximum size"
  | int_from_float =>
      "Input should be a valid integer, got a number with a fractional part"
  | finite_number => "Input should be a finite number"
  | float_type => "Input should be a valid number"
  | float_parsing =>
      "Input should be a valid number, unable to parse string as a number"
  | greater_than_equal => "Input should be greater than or equal to 0"
  | value_error text => "Value error, " +:+ text
  end.

(** ** Library routines taken as parameters

    Three library matters that the script does not fix are parameters of
    the development: how pydantic reads a number out of text ([qty] or
    [amount] arriving as a string because some cell of the column was not
    numeric; for an integer it gives the number or the error it reports,
    [int_parsing] or, for an over-long numeral, [int_parsing_size]), how
    Python prints a float, and which characters beyond 0..9 the Unicode
    tables of the interpreter count as decimal digits, with their value
    (Arabic-Indic, Devanagari, fullwidth digits and so on: the regular
    expression [\d] and [int] accept them all). *)

Class Runtime := {
  str_as_int : string -> result ErrorType Z;
  str_as_float : string -> option pyfloat;
  float_repr : pyfloat -> string;
  unicode_decimal : string -> option nat;
  unicode_decimal_lt : forall ch v, unicode_decimal ch = Some v -> (v < 10)%nat
}.

(** ** Decimal rendering, [str(n)] *)

Definition str_nat (n : nat) : string :=
  NilEmpty.string_of_uint (Nat.to_uint n).

Definition str_Z (z : Z) : string :=
  NilEmpty.string_of_int (Z.to_int z).

(** ["="*50] *)
Fixpoint repeat_string (s : string) (n : nat) : string :=
  match n with
  | O => ""
  | S k => s +:+ repeat_string s k
  end.

Definition rule : string := repeat_string "=" 50.

(** ** Text

    A Python [str] is a sequence of characters; a [string] here holds its
    UTF-8 bytes, so a character is one to four bytes: a leading byte that
    tells the width, then continuation bytes (128..191). *)

Definition in_range (lo hi c : ascii) : bool :=
  (nat_of_ascii lo <=? nat_of_ascii c)%nat && (nat_of_ascii c <=? nat_of_ascii hi)%nat.

Definition is_cont (c : ascii) : bool :=
  (128 <=? nat_of_ascii c)%nat && (nat_of_ascii c <=? 191)%nat.

Definition char_width (c : ascii) : nat :=
  let n := nat_of_ascii c in
  if (n <? 128)%nat then 1
  else if (n <? 192)%nat then 0
  else if (n <? 224)%nat then 2
  else if (n <? 240)%nat then 3
  else if (n <? 248)%nat then 4
  else 0.

(** The first character of a text and what follows it. *)
Definition next_char (s : string) : option (string * string) :=
  match s with
  | EmptyString => None
  | String c s1 =>
      match char_width c with
      | 1 => Some (String c "", s1)
      | 2 =>
          match s1 with
          | String c1 s2 =>
              if is_cont c1 then Some (String c (String c1 ""), s2) else None
          | _ => None
          end
      | 3 =>
          match s1 with
          | String c1 (String c2 s3) =>
              if is_cont c1 && is_cont c2
              then Some (String c (String c1 (String c2 "")), s3) else None
          | _ => None
          end
      | 4 =>
          match s1 with
          | String c1 (String c2 (String c3 s4)) =>
              if is_cont c1 && is_cont c2 && is_cont c3
              then Some (String c (String c1 (String c2 (String c3 ""))), s4) else None
          | _ => None
          end
      | _ => None
      end
  end.

(** The characters of a text, in order. *)
Fixpoint chars_fuel (fuel : nat) (s : string) : list string :=
  match fuel with
  | O => []
  | S k =>
      match next_char s with
      | Some (ch, rest) => ch :: chars_fuel k rest
      | None => []
      end
  end.

Definition chars (s : string) : list string := chars_fuel (String.length s) s.

(** The text is made of whole characters. *)
Definition whole_chars (s : string) : bool :=
  String.eqb (fold_right String.append "" (chars s)) s.

(** The text is one or two whole characters. *)
Definition one_or_two (t : string) : bool :=
  whole_chars t && (1 <=? length (chars t))%nat && (length (chars t) <=? 2)%nat.

(** The value of a character as a decimal digit: 0..9 for the ASCII
    digits, what the Unicode tables say for any other character. *)
Definition decimal_value `{Runtime} (ch : string) : option nat :=
  match ch with
  | String c EmptyString =>
      if in_range "0" "9" c then Some (nat_of_ascii c - 48) else None
  | _ => unicode_decimal ch
  end.

(** ** [datetime.strptime(value, "%m-%d-%y")]

    [strptime] turns the format into a regular expression, matches it at
    the start of the text, demands that the match covers the whole text,
    and builds the date from the three groups.  The expressions of the
    directives are those of CPython's [_strptime.TimeRE]:
    [%m] is [1[0-2]|0[1-9]|[1-9]], [%d] is
    [3[0-1]|[1-2]\d|0[1-9]|[1-9]| [1-9]] and [%y] is [\d\d].
    On text, [\d] is any character that is a decimal digit, not only
    0..9; a range such as [[0-2]] is a range of ASCII characters. *)

Inductive regex :=
| Chr (c : ascii)
| Rng (lo hi : ascii)
| Dig
| Seq (r1 r2 : regex)
| Alt (r1 r2 : regex).

Section Strptime.
Context `{Runtime}.

(** Backtracking matcher: every way [r] can match a prefix of [s], in the
    order the engine tries them, as (matched text, rest). *)
Fixpoint run (r : regex) (s : string) : list (string * string) :=
  match r with
  | Chr c =>
      match s with
      | String c' s' => if Ascii.eqb c c' then [(String c' "", s')] else []
      | EmptyString => []
      end
  | Rng lo hi =>
      match s with
      | String c' s' => if in_range lo hi c' then [(String c' "", s')] else []
      | EmptyString => []
      end
  | Dig =>
      match next_char s with
      | Some (ch, rest) =>
          match decimal_value ch with
          | Some _ => [(ch, rest)]
          | None => []
          end
      | None => []
      end
  | Seq r1 r2 =>
      flat_map (fun '(t1, s1) =>
                  List.map (fun '(t2, s2) => (t1 +:+ t2, s2)) (run r2 s1))
               (run r1 s)
  | Alt r1 r2 => run r1 s ++ run r2 s
  end.

Definition re_m : regex :=
  Alt (Seq (Chr "1") (Rng "0" "2"))
      (Alt (Seq (Chr "0") (Rng "1" "9")) (Rng "1" "9")).

Definition re_d : regex :=
  Alt (Seq (Chr "3") (Rng "0" "1"))
      (Alt (Seq (Rng "1" "2") Dig)
           (Alt (Seq (Chr "0") (Rng "1" "9"))
                (Alt (Rng "1" "9") (Seq (Chr " ") (Rng "1" "9"))))).

Definition re_y : regex := Seq Dig Dig.

(** [int(text)] on the text of a group: decimal digits, after an optional
    blank. *)
Definition int_step (acc : nat) (ch : string) : nat :=
  if String.eqb ch " " then acc
  else 10 * acc + match decimal_value ch with Some v => v | None => 0 end.

Definition py_int (t : string) : nat := fold_left int_step (chars t) 0.

(** Every match of [(?P<m>..)-(?P<d>..)-(?P<y>..)] at the start of the
    text, in the order the engine finds them: the three group texts and
    what follows the match.  [re.match] returns the first. *)
Definition format_matches (s : string) : list (string * string * string * string) :=
  flat_map (fun '(tm, s1) =>
    flat_map (fun '(_, s2) =>
      flat_map (fun '(td, s3) =>
        flat_map (fun '(_, s4) =>
          List.map (fun '(ty, s5) => (tm, td, ty, s5)) (run re_y s4))
          (run (Chr "-") s3))
        (run re_d s2))
      (run (Chr "-") s1))
    (run re_m s).

Definition format_match (s : string) : option (string * string * string * string) :=
  head (format_matches s).

Definition is_leap (year : nat) : bool :=
  ((year mod 4 =? 0) && negb (year mod 100 =? 0) || (year mod 400 =? 0))%nat.

Definition days_in_month (year month : nat) : nat :=
  match month with
  | 2 => if is_leap year then 29 else 28
  | 4 | 6 | 9 | 11 => 30
  | _ => 31
  end.

(** Two-digit years: 00..68 are 2000..2068, 69..99 are 1969..1999. *)
Definition full_year (y : nat) : nat :=
  if (y <=? 68)%nat then 2000 + y else 1900 + y.

Record datetime := { year : nat; month : nat; day : nat }.

Definition strptime (s : string) : result string datetime :=
  match format_match s with
  | None => Err "time data does not match format"
  | Some (tm, td, ty, rest) =>
      if negb (String.eqb rest "") then Err "unconverted data remains"
      else
        let y := full_year (py_int ty) in
        let m := py_int tm in
        let d := py_int td in
        if ((1 <=? d) && (d <=? days_in_month y m))%nat
        then Ok {| year := y; month := m; day := d |}
        else Err "day is out of range for month"
  end.

End Strptime.

(** ** The schema: the fields of the model *)

Section Schema.
Context `{Runtime}.

(** A [str] field takes text only.  The length is counted in bytes here;
    for the bounds 0 and 1 that the schema uses this is the same as
    counting characters. *)
Definition str_validator (min_length : nat) (v : PyValue) : result ErrorType string :=
  match v with
  | PyStr s => if (String.length s <? min_length)%nat then Err string_too_short else Ok s
  | _ => Err string_type
  end.

Definition is_integral (q : Q) : bool := (Qnum q mod Zpos (Qden q) =? 0)%Z.

(** A float becomes an [int] when it is finite, has no fractional part and
    lies strictly between -2^63 and 2^63. *)
Definition float_as_int (f : pyfloat) : result ErrorType Z :=
  match f with
  | FNum q =>
      if negb (is_integral q) then Err int_from_float
      else
        let z := (Qnum q / Zpos (Qden q))%Z in
        if ((- 2 ^ 63 <? z) && (z <? 2 ^ 63))%Z then Ok z else Err int_parsing_size
  | _ => Err finite_number
  end.

(** An [int] field takes an integer, a boolean, text that reads as an
    integer, or a float accepted by [float_as_int]. *)
Definition int_lax (v : PyValue) : result ErrorType Z :=
  match v with
  | PyInt z => Ok z
  | PyBool b => Ok (if b then 1 else 0)%Z
  | PyStr s => str_as_int s
  | PyFloat f => float_as_int f
  end.

Definition int_validator (ge : Z) (v : PyValue) : result ErrorType Z :=
  z ← int_lax v;
  if (z <? ge)%Z then Err greater_than_equal else Ok z.

(** An integer converts to the nearest double (53 significant bits, ties
    to even) unless that lies beyond the largest double. *)
Definition float_max_int : Z := (2 ^ 1024 - 2 ^ 970)%Z.

Definition nearest_double (z : Z) : Z :=
  let a := Z.abs z in
  let e := (Z.log2 a - 52)%Z in
  if (e <=? 0)%Z then z
  else
    let q := (a / 2 ^ e)%Z in
    let r := (a mod 2 ^ e)%Z in
    let half := (2 ^ (e - 1))%Z in
    let q' := if (r <? half)%Z then q
              else if (half <? r)%Z then (q + 1)%Z
              else if Z.even q then q else (q + 1)%Z in
    (Z.sgn z * (q' * 2 ^ e))%Z.

Definition float_lax (v : PyValue) : result ErrorType pyfloat :=
  match v with
  | PyFloat f => Ok f
  | PyStr s =>
      match str_as_float s with
      | Some f => Ok f
      | None => Err float_parsing
      end
  | PyInt z =>
      if (Z.abs z <? float_max_int)%Z
      then Ok (FNum (inject_Z (nearest_double z))) else Err float_type
  | PyBool b => Ok (FNum (if b then 1 else 0))
  end.

(** [f >= 0] on floats: false at nan. *)
Definition float_ge0 (f : pyfloat) : bool :=
  match f with
  | FNum q => Qle_bool 0 q
  | FInf negative => negb negative
  | FNan => false
  end.

Definition float_validator_ge0 (v : PyValue) : result ErrorType pyfloat :=
  f ← float_lax v;
  if float_ge0 f then Ok f else Err greater_than_equal.

(** The script's own validators; [Err] is the text of the [ValueError]. *)
Definition check_currency (value : string) : result string string :=
  if negb (String.eqb value "INR") then Err "Currency must be INR" else Ok value.

Definition check_country (value : string) : result string string :=
  if negb (String.eqb value "IN") then Err "Ship country must be IN" else Ok value.

Definition check_date_format (value : string) : result string string :=
  match strptime value with
  | Ok _ => Ok value
  | Err _ => Err "Date must be in format MM-DD-YY"
  end.

(** A [field_validator] runs after the field's type was accepted; what it
    raises becomes a [value_error]. *)
Definition after {A} (check : A -> result string A) (a : A) : result ErrorType A :=
  match check a with
  | Ok a' => Ok a'
  | Err text => Err (value_error text)
  end.

(** One field of the model: absent from the row, rejected, or accepted. *)
Definition field {A} (name : string) (validator : PyValue -> result ErrorType A)
    (row : Row) : result ErrorDetails A :=
  match row !! name with
  | None => Err {| loc := name; err := missing |}
  | Some v =>
      match validator v with
      | Ok a => Ok a
      | Err e => Err {| loc := name; err := e |}
      end
  end.

Definition errors_of {A} (r : result ErrorDetails A) : list ErrorDetails :=
  match r with
  | Ok _ => []
  | Err e => [e]
  end.

Record AmazonOrder := {
  order_id : string;
  qty : Z;
  amount : pyfloat;
  currency : string;
  ship_country : string;
  date : string
}.

Definition order_id_field : Row -> result ErrorDetails string :=
  field "order_id" (str_validator 1).
Definition qty_field : Row -> result ErrorDetails Z :=
  field "qty" (int_validator 0).
Definition amount_field : Row -> result ErrorDetails pyfloat :=
  field "amount" float_validator_ge0.
Definition currency_field : Row -> result ErrorDetails string :=
  field "currency" (fun v => s ← str_validator 0 v; after check_currency s).
Definition ship_country_field : Row -> result ErrorDetails string :=
  field "ship_country" (fun v => s ← str_validator 0 v; after check_country s).
Definition date_field : Row -> result ErrorDetails string :=
  field "date" (fun v => s ← str_validator 0 v; after check_date_format s).

(** Building an [AmazonOrder] from the columns of [row_dict]: every field
    is validated, in the order of the class; the errors of all fields are gathered, and the model is
    built only when there is none.  Columns that are not fields of the
    model are ignored. *)
Definition validate (row_dict : Row) : result (list ErrorDetails) AmazonOrder :=
  let r1 := order_id_field row_dict in
  let r2 := qty_field row_dict in
  let r3 := amount_field row_dict in
  let r4 := currency_field row_dict in
  let r5 := ship_country_field row_dict in
  let r6 := date_field row_dict in
  match r1, r2, r3, r4, r5, r6 with
  | Ok a, Ok b, Ok c, Ok d, Ok e, Ok f =>
      Ok {| order_id := a; qty := b; amount := c;
            currency := d; ship_country := e; date := f |}
  | _, _, _, _, _, _ =>
      Err (errors_of r1 ++ errors_of r2 ++ errors_of r3 ++
           errors_of r4 ++ errors_of r5 ++ errors_of r6)
  end.

(** [e.error_count()] *)
Definition error_count (e : list ErrorDetails) : nat := length e.

End Schema.

(** ** The script: loop, summary, files, alert, exit status *)

Definition nl : string := String (ascii_of_nat 10) "".

(** What [print] and f-strings make of a cell. *)
Definition py_str `{Runtime} (v : PyValue) : string :=
  match v with
  | PyStr s => s
  | PyInt z => str_Z z
  | PyBool b => if b then "True" else "False"
  | PyFloat f => float_repr f
  end.

(** What [requests.post] does is up to the network: a response with a
    status code, or an exception. *)
Inductive PostResult :=
| Response (status_code : Z)
| Raised (e : string).

Record Env := {
  SLACK_WEBHOOK_URL : string;
  post : string -> string -> PostResult
}.

(** The text of the alert. *)
Definition alert_text (invalid_count total_count : Z) : string :=
  "⚠️ *Amazon Orders Validation Alert*" +:+ nl +:+ nl +:+
  "• Total rows: " +:+ str_Z total_count +:+ nl +:+
  "• Valid rows: " +:+ str_Z (total_count - invalid_count) +:+ nl +:+
  "• Invalid rows: " +:+ str_Z invalid_count +:+ nl +:+ nl +:+
  "❌ Please check `invalid_rows.csv` for details.".

(** [send_slack_notification]: the lines it prints and, when the webhook
    is set, the (url, text) it posts. *)
Definition send_slack_notification (env : Env) (invalid_count total_count : Z)
    : list string * option (string * string) :=
  let message := alert_text invalid_count total_count in
  if String.eqb (SLACK_WEBHOOK_URL env) "" then
    ([nl +:+ rule;
      "📢 SLACK NOTIFICATION (Mock - No Webhook Configured)";
      rule;
      message;
      rule], None)
  else
    let sent := Some (SLACK_WEBHOOK_URL env, message) in
    match post env (SLACK_WEBHOOK_URL env) message with
    | Response status_code =>
        if (status_code =? 200)%Z
        then ([nl +:+ "✅ Slack notification sent successfully!"], sent)
        else ([nl +:+ "❌ Slack notification failed: " +:+ str_Z status_code], sent)
    | Raised e =>
        ([nl +:+ "❌ Error sending Slack notification: " +:+ e], sent)
    end.

Record LoopState := {
  valid_rows : list Row;
  invalid_rows : list Row;
  printed : list string
}.

Section Script.
Context `{Runtime}.

(** [row_dict['order_id']] inside the f-string. *)
Definition order_id_text (row_dict : Row) : string :=
  match row_dict !! "order_id" with
  | Some v => py_str v
  | None => ""
  end.

Definition error_line (error : ErrorDetails) : string :=
  "   • " +:+ loc error +:+ ": " +:+ msg error.

(** The annotation of an invalid row. *)
Definition annotate (e : list ErrorDetails) (row : Row) : Row :=
  <["validation_errors" := PyStr (str_nat (error_count e) +:+ " error(s)")]> row.

(** One turn of the loop over [df.iterrows()]. *)
Definition loop_body (st : LoopState) (item : nat * Row) : LoopState :=
  let '(index, row) := item in
  let row_number := index + 1 in
  match validate row with
  | Ok order =>
      {| valid_rows := valid_rows st ++ [row];
         invalid_rows := invalid_rows st;
         printed := printed st ++
           ["✅ Row " +:+ str_nat row_number +:+ ": Valid - " +:+ order_id_text row] |}
  | Err e =>
      {| valid_rows := valid_rows st;
         invalid_rows := invalid_rows st ++ [annotate e row];
         printed := printed st ++
           ("❌ Row " +:+ str_nat row_number +:+ ": Invalid") :: List.map error_line e |}
  end.

(** [df.iterrows()] with the default index 0, 1, 2, ... *)
Definition iterrows (df : list Row) : list (nat * Row) :=
  combine (seq 0 (length df)) df.

Definition validate_rows (df : list Row) (st : LoopState) : LoopState :=
  fold_left loop_body (iterrows df) st.

(** Everything the run leaves behind. *)
Record Outcome := {
  stdout : list string;
  valid_csv : option (list Row);
  invalid_csv : option (list Row);
  posted : option (string * string);
  exit_code : Z
}.

(** What is printed before the loop, and the loop from its empty lists. *)
Definition loading (df : list Row) : list string :=
  [rule; "📂 Loading CSV File"; rule;
   "✅ Loaded " +:+ str_nat (length df) +:+ " rows" +:+ nl] ++
  [rule; "🔍 Validating Rows"; rule].

Definition run_loop (df : list Row) : LoopState :=
  validate_rows df {| valid_rows := []; invalid_rows := []; printed := loading df |}.

Definition main (env : Env) (df : list Row) : Outcome :=
  let st := run_loop df in
  let valid_rows := valid_rows st in
  let invalid_rows := invalid_rows st in
  let out := printed st ++
    [nl +:+ rule; "📊 Validation Summary"; rule;
     "Total rows:   " +:+ str_nat (length df);
     "Valid rows:   " +:+ str_nat (length valid_rows);
     "Invalid rows: " +:+ str_nat (length invalid_rows);
     rule;
     nl +:+ rule; "💾 Saving Results"; rule] in
  let '(valid_csv, out) :=
    if (0 <? length valid_rows)%nat
    then (Some valid_rows,
          out ++ ["✅ Saved " +:+ str_nat (length valid_rows) +:+
                  " valid rows to 'valid_rows.csv'"])
    else (None, out ++ ["⚠️  No valid rows to save"]) in
  let '(invalid_csv, out) :=
    if (0 <? length invalid_rows)%nat
    then (Some invalid_rows,
          out ++ ["❌ Saved " +:+ str_nat (length invalid_rows) +:+
                  " invalid rows to 'invalid_rows.csv'"])
    else (None, out ++ ["✅ No invalid rows found"]) in
  let out := out ++ [rule] in
  let '(out, posted) :=
    if (0 <? length invalid_rows)%nat
    then
      let '(lines, sent) :=
        send_slack_notification env (Z.of_nat (length invalid_rows))
                                (Z.of_nat (length df)) in
      (out ++ lines, sent)
    else (out, None) in
  let out := out ++ [nl +:+ rule] in
  if (0 <? length invalid_rows)%nat then
    {| stdout := out ++ ["❌ VALIDATION FAILED";
                         "   Invalid rows: " +:+ str_nat (length invalid_rows);
                         "   Check invalid_rows.csv for details";
                         rule];
       valid_csv := valid_csv; invalid_csv := invalid_csv;
       posted := posted; exit_code := 1 |}
  else
    {| stdout := out ++ ["✅ VALIDATION PASSED";
                         "   All " +:+ str_nat (length valid_rows) +:+ " rows are valid";
                         rule];
       valid_csv := valid_csv; invalid_csv := invalid_csv;
       posted := posted; exit_code := 0 |}.

(** [len(invalid_rows)] after the loop. *)
Definition invalid_count (df : list Row) : nat := length (invalid_rows (run_loop df)).

End Script.

(** ** Dates, as text

    What a regular expression matches, and, for an expression without
    [\d], every text it matches (there is no repetition, so there are
    finitely many). *)

Section DateText.
Context `{Runtime}.

(** [ch] is one character, a decimal digit of value [v]. *)
Definition digit_char (ch : string) (v : nat) : Prop :=
  next_char ch = Some (ch, "") /\ decimal_value ch = Some v.

Fixpoint lang (r : regex) (t : string) : Prop :=
  match r with
  | Chr c => t = String c ""
  | Rng lo hi => exists c, in_range lo hi c = true /\ t = String c ""
  | Dig => exists v, digit_char t v
  | Seq r1 r2 => exists t1 t2, t = t1 +:+ t2 /\ lang r1 t1 /\ lang r2 t2
  | Alt r1 r2 => lang r1 t \/ lang r2 t
  end.

Definition chars_between (lo hi : ascii) : list ascii :=
  List.map ascii_of_nat
    (seq (nat_of_ascii lo) (nat_of_ascii hi + 1 - nat_of_ascii lo)).

Fixpoint dig_free (r : regex) : bool :=
  match r with
  | Dig => false
  | Seq r1 r2 | Alt r1 r2 => dig_free r1 && dig_free r2
  | _ => true
  end.

Fixpoint enum (r : regex) : list string :=
  match r with
  | Chr c => [String c ""]
  | Rng lo hi => List.map (fun c => String c "") (chars_between lo hi)
  | Dig => []
  | Seq r1 r2 =>
      flat_map (fun t1 => List.map (fun t2 => t1 +:+ t2) (enum r2)) (enum r1)
  | Alt r1 r2 => enum r1 ++ enum r2
  end.

(** [re_d] without its alternative [[1-2]\d]. *)
Definition re_d_plain : regex :=
  Alt (Seq (Chr "3") (Rng "0" "1"))
      (Alt (Seq (Chr "0") (Rng "1" "9"))
           (Alt (Rng "1" "9") (Seq (Chr " ") (Rng "1" "9")))).

Fixpoint no_dash (t : string) : bool :=
  match t with
  | EmptyString => true
  | String c t' => negb (Ascii.eqb c "-") && no_dash t'
  end.

(** A number below 100 written with the two digits 0..9. *)
Definition two_digits (n : nat) : string :=
  if (n <? 10)%nat then "0" +:+ str_nat n else str_nat n.

(** How the month may be written: plainly or with two digits. *)
Definition month_written (m : nat) (t : string) : Prop :=
  t = str_nat m \/ t = two_digits m.

(** How the day may be written: plainly, with two digits, for a day below
    10 also after a blank, and for a day from 10 to 29 with any decimal
    digit character in the second place. *)
Definition day_written (d : nat) (t : string) : Prop :=
  t = str_nat d \/ t = two_digits d \/ ((d < 10)%nat /\ t = " " +:+ str_nat d) \/
  (exists c ch v, (c = 1 \/ c = 2)%nat /\ digit_char ch v /\
                  d = (10 * c + v)%nat /\ t = str_nat c +:+ ch).

(** How the year is written: two decimal digit characters. *)
Definition year_written (y : nat) (t : string) : Prop :=
  exists ch1 ch2 v1 v2,
    digit_char ch1 v1 /\ digit_char ch2 v2 /\
    y = (10 * v1 + v2)%nat /\ t = ch1 +:+ ch2.

(** Day [d] of month [m] exists in the year that the two digits [y] stand
    for. *)
Definition real_date (y m d : nat) : Prop :=
  (1 <= m <= 12)%nat /\ (1 <= d <= days_in_month (full_year y) m)%nat /\ (y < 100)%nat.

(** The texts [check_date_format] lets through. *)
Definition date_text (s : string) : Prop :=
  exists m d y tm td ty,
    real_date y m d /\ month_written m tm /\ day_written d td /\
    year_written y ty /\
    s = tm +:+ "-" +:+ td +:+ "-" +:+ ty.

(** The pattern MM-DD-YY read strictly: two digits 0..9 each. *)
Definition mm_dd_yy (s : string) : Prop :=
  exists m d y,
    real_date y m d /\
    s = two_digits m +:+ "-" +:+ two_digits d +:+ "-" +:+ two_digits y.

End DateText.

(** ** Classification of a row *)

Definition field_names : list string :=
  ["order_id"; "qty"; "amount"; "currency"; "ship_country"; "date"].

Section Classification.
Context `{Runtime}.

Definition is_valid (row : Row) : bool := is_ok (validate row).

(** The errors the exception carries; none when the model is built. *)
Definition errors (row : Row) : list ErrorDetails :=
  match validate row with
  | Ok _ => []
  | Err e => e
  end.

(** Whether the named field of the schema is accepted for this row. *)
Definition field_passes (row : Row) (name : string) : bool :=
  if String.eqb name "order_id" then is_ok (order_id_field row)
  else if String.eqb name "qty" then is_ok (qty_field row)
  else if String.eqb name "amount" then is_ok (amount_field row)
  else if String.eqb name "currency" then is_ok (currency_field row)
  else if String.eqb name "ship_country" then is_ok (ship_country_field row)
  else if String.eqb name "date" then is_ok (date_field row)
  else true.

Definition violated (row : Row) : list string :=
  List.filter (fun name => negb (field_passes row name)) field_names.

(** The row as it enters the invalid list. *)
Definition annotated (row : Row) : Row := annotate (errors row) row.

(** ** The six constraints, in the words of the specification *)



Definition non_negative (f : pyfloat) : Prop :=
  match f with
  | FNum q => (0 <= q)%Q
  | FInf negative => negative = false
  | FNan => False
  end.

Definition order_id_holds (row : Row) : Prop :=
  exists s, row !! "order_id" = Some (PyStr s) /\ s <> "".






End Classification.

(** [part] occurs inside [whole]. *)
Definition contains (part whole : string) : Prop :=
  exists before after, whole = before +:+ part +:+ after.

(** ** Worked examples *)

(** A runtime for the examples: it reads unsigned numerals written with
    0..9, prints a float as a fraction, and knows the Arabic-Indic
    (U+0660..), the Extended Arabic-Indic (U+06F0..) and the fullwidth
    (U+FF10..) digits.  The theorems hold for every runtime. *)
Definition numeral (s : string) : result ErrorType Z :=
  match s with
  | EmptyString => Err int_parsing
  | _ =>
      if forallb (in_range "0" "9") (list_ascii_of_string s)
      then Ok (Z.of_nat
                 (fold_left (fun acc c => 10 * acc + (nat_of_ascii c - 48))
                            (list_ascii_of_string s) 0)%nat)
      else Err int_parsing
  end.

Definition digit_in_block (first : nat) (c : ascii) : option nat :=
  let n := nat_of_ascii c in
  if ((first <=? n) && (n <? first + 10))%nat then Some (n - first) else None.

Definition example_decimal (ch : string) : option nat :=
  match ch with
  | String a (String b EmptyString) =>
      if Ascii.eqb a (ascii_of_nat 217) then digit_in_block 160 b
      else if Ascii.eqb a (ascii_of_nat 219) then digit_in_block 176 b
      else None
  | String a (String b (String c EmptyString)) =>
      if Ascii.eqb a (ascii_of_nat 239) && Ascii.eqb b (ascii_of_nat 188)
      then digit_in_block 144 c
      else None
  | _ => None
  end.

Definition digit_in_block_lt first c v :
  digit_in_block first c = Some v -> (v < 10)%nat.
Proof.
  unfold digit_in_block.
  destruct (andb _ _) eqn:Hb; [| discriminate]. intros [= <-].
  apply andb_true_iff in Hb as [_ Hb]. apply Nat.ltb_lt in Hb. lia.
Qed.

Definition example_decimal_lt ch v :
  example_decimal ch = Some v -> (v < 10)%nat.
Proof.
  unfold example_decimal.
  destruct ch as [|a [|b [|c [|x ch]]]]; try discriminate.
  - destruct (Ascii.eqb a _); [apply digit_in_block_lt |].
    destruct (Ascii.eqb a _); [apply digit_in_block_lt | discriminate].
  - destruct (andb _ _); [apply digit_in_block_lt | discriminate].
Qed.

Definition example_runtime : Runtime := {|
  str_as_int := numeral;
  str_as_float := fun s =>
    match numeral s with
    | Ok z => Some (FNum (inject_Z z))
    | Err _ => None
    end;
  float_repr := fun f =>
    match f with
    | FNum q => str_Z (Qnum q) +:+ "/" +:+ str_Z (Zpos (Qden q))
    | FInf negative => if negative then "-inf" else "inf"
    | FNan => "nan"
    end;
  unicode_decimal := example_decimal;
  unicode_decimal_lt := example_decimal_lt
|}.

Definition order (order_id : string) (qty : Z) (amount : Q)
    (currency ship_country date : string) : Row :=
  <["order_id" := PyStr order_id]>
  (<["qty" := PyInt qty]>
  (<["amount" := PyFloat (FNum amount)]>
  (<["currency" := PyStr currency]>
  (<["ship_country" := PyStr ship_country]>
  (<["date" := PyStr date]> ∅))))).

Definition row_A1 : Row := order "A1" 2 100 "INR" "IN" "01-15-24".
Definition row_A2 : Row := order "A2" (-1) 50 "USD" "IN" "01-15-24".

(** A valid row whose [qty] is the boolean True: the model holds 1. *)
Definition row_flag : Row := <["qty" := PyBool true]> row_A1.

Definition console_env : Env :=
  {| SLACK_WEBHOOK_URL := ""; post := fun _ _ => Response 200 |}.

(** ** The lines of one turn of the loop *)

Definition row_lines `{Runtime} (item : nat * Row) : list string :=
  let '(index, row) := item in
  if is_valid row
  then ["✅ Row " +:+ str_nat (index + 1) +:+ ": Valid - " +:+ order_id_text row]
  else ("❌ Row " +:+ str_nat (index + 1) +:+ ": Invalid") :: List.map error_line (errors row).

(** A webhook that is set, for the examples. *)
Definition webhook_env (answer : PostResult) : Env :=
  {| SLACK_WEBHOOK_URL := "https://hooks.example/T0"; post := fun _ _ => answer |}.

(** A row whose year is written with Arabic-Indic digits. *)
Definition row_A3 : Row := order "A3" 1 10 "INR" "IN" "01-15-٢٤".
Example strptime_jan15 `{Runtime} :
  strptime "01-15-24" = Ok {| year := 2024; month := 1; day := 15 |}.
Proof. reflexivity. Qed.

Example strptime_short `{Runtime} :
  strptime "1-5-24" = Ok {| year := 2024; month := 1; day := 5 |}.
Proof. reflexivity. Qed.

Example strptime_month13 `{Runtime} : is_ok (strptime "13-01-24") = false.
Proof. reflexivity. Qed.

Example strptime_day32 `{Runtime} : is_ok (strptime "01-32-24") = false.
Proof. reflexivity. Qed.

Example strptime_feb29 `{Runtime} :
  is_ok (strptime "02-29-24") = true /\ is_ok (strptime "02-29-23") = false.
Proof. split; reflexivity. Qed.

(** Digits of other scripts: the year and the second digit of the day may
    be written with them, the month may not. *)
Example strptime_arabic_indic :
  strptime (H := example_runtime) "01-15-٢٤" = Ok {| year := 2024; month := 1; day := 15 |} /\
  strptime (H := example_runtime) "01-1٥-24" = Ok {| year := 2024; month := 1; day := 15 |} /\
  strptime (H := example_runtime) "01-15-２４" = Ok {| year := 2024; month := 1; day := 15 |} /\
  is_ok (strptime (H := example_runtime) "٠١-15-24") = false.
Proof. repeat split; vm_compute; reflexivity. Qed.

(** ** Text and characters *)

Lemma append_cons (x : ascii) (a b : string) : String x a +:+ b = String x (a +:+ b).
Proof. reflexivity. Qed.

Lemma append_nil_l (b : string) : "" +:+ b = b.
Proof. reflexivity. Qed.

Lemma append_assoc (a b c : string) : (a +:+ b) +:+ c = a +:+ (b +:+ c).
Proof.
  induction a as [|x a IH]; [reflexivity |].
  rewrite !append_cons. now rewrite IH.
Qed.

Lemma append_nil_r (a : string) : a +:+ "" = a.
Proof.
  induction a as [|x a IH]; [reflexivity |].
  rewrite append_cons. now rewrite IH.
Qed.

Lemma length_append (a b : string) :
  String.length (a +:+ b) = String.length a + String.length b.
Proof.
  induction a as [|c a IH]; [reflexivity |].
  rewrite append_cons. simpl. now rewrite IH.
Qed.

Ltac string_norm :=
  repeat (rewrite ?append_cons, ?append_nil_l in * ).

Lemma next_char_split s ch rest :
  next_char s = Some (ch, rest) ->
  s = ch +:+ rest /\ next_char ch = Some (ch, "") /\ ch <> "".
Proof.
  destruct s as [|c s]; [discriminate |]. unfold next_char.
  destruct (char_width c) as [|[|[|[|[|n]]]]] eqn:W; try discriminate.
  - intros [= <- <-]. now rewrite W.
  - destruct s as [|c1 s]; [discriminate |].
    destruct (is_cont c1) eqn:H1; [| discriminate].
    intros [= <- <-]. now rewrite W, H1.
  - destruct s as [|c1 [|c2 s]]; try discriminate.
    destruct (is_cont c1) eqn:H1; [| discriminate].
    destruct (is_cont c2) eqn:H2; [| discriminate].
    intros [= <- <-]. now rewrite W, H1, H2.
  - destruct s as [|c1 [|c2 [|c3 s]]]; try discriminate.
    destruct (is_cont c1) eqn:H1; [| discriminate].
    destruct (is_cont c2) eqn:H2; [| discriminate].
    destruct (is_cont c3) eqn:H3; [| discriminate].
    intros [= <- <-]. now rewrite W, H1, H2, H3.
Qed.

Lemma next_char_app ch rest :
  next_char ch = Some (ch, "") -> next_char (ch +:+ rest) = Some (ch, rest).
Proof.
  destruct ch as [|c s]; [discriminate |]. unfold next_char. rewrite append_cons.
  destruct (char_width c) as [|[|[|[|[|n]]]]] eqn:W; try discriminate.
  - intros Heq. injection Heq as E1 E2. subst. reflexivity.
  - destruct s as [|c1 s]; [discriminate |]. rewrite append_cons.
    destruct (is_cont c1); [| discriminate].
    intros Heq. injection Heq as E1 E2. subst. reflexivity.
  - destruct s as [|c1 [|c2 s]]; try discriminate. rewrite !append_cons.
    destruct (is_cont c1 && is_cont c2); [| discriminate].
    intros Heq. injection Heq as E1 E2. subst. reflexivity.
  - destruct s as [|c1 [|c2 [|c3 s]]]; try discriminate. rewrite !append_cons.
    destruct (is_cont c1 && is_cont c2 && is_cont c3); [| discriminate].
    intros Heq. injection Heq as E1 E2. subst. reflexivity.
Qed.

Lemma next_char_shorter s ch rest :
  next_char s = Some (ch, rest) -> (String.length rest < String.length s)%nat.
Proof.
  intros Hn. apply next_char_split in Hn as (-> & _ & Hne).
  rewrite length_append. destruct ch; [congruence | simpl; lia].
Qed.

Lemma chars_fuel_enough : forall k1 k2 s,
  (String.length s <= k1)%nat -> (String.length s <= k2)%nat ->
  chars_fuel k1 s = chars_fuel k2 s.
Proof.
  induction k1 as [|k1 IH]; intros k2 s H1 H2.
  - destruct s; [| simpl in H1; lia]. destruct k2; reflexivity.
  - destruct k2 as [|k2].
    + destruct s; [reflexivity | simpl in H2; lia].
    + simpl. destruct (next_char s) as [[ch rest] |] eqn:Hn; [| reflexivity].
      apply next_char_shorter in Hn. f_equal. apply IH; lia.
Qed.

(** The characters of a text that starts with the character [ch]. *)
Lemma chars_cons ch rest :
  next_char ch = Some (ch, "") -> chars (ch +:+ rest) = ch :: chars rest.
Proof.
  intros Hc. pose proof (next_char_app ch rest Hc) as Hn.
  unfold chars at 1.
  destruct (String.length (ch +:+ rest)) as [|k] eqn:Hl.
  - apply next_char_shorter in Hn. lia.
  - simpl. rewrite Hn. f_equal. apply chars_fuel_enough; [| lia].
    apply next_char_shorter in Hn. lia.
Qed.

Lemma chars_single ch : next_char ch = Some (ch, "") -> chars ch = [ch].
Proof.
  intros Hc. rewrite <- (append_nil_r ch) at 1. now rewrite chars_cons.
Qed.

(** ** Regular expressions: the matcher against the language *)

Section Regex.
Context `{Runtime}.

Lemma run_lang (r : regex) : forall s t rest,
  In (t, rest) (run r s) <-> lang r t /\ s = t +:+ rest.
Proof.
  induction r as [c | lo hi | | r1 IH1 r2 IH2 | r1 IH1 r2 IH2]; intros s t rest; simpl.
  - destruct s as [|c' s']; simpl.
    + split; [tauto | intros [-> Hs]; discriminate Hs].
    + destruct (Ascii.eqb_spec c c') as [-> | Hne]; simpl.
      * split.
        -- intros [Heq | []]. injection Heq as <- <-. now split.
        -- intros [-> Hs]. injection Hs as ->. now left.
      * split; [tauto | intros [-> Hs]; injection Hs as Hc _; congruence].
  - destruct s as [|c' s']; simpl.
    + split; [tauto | intros [(c & _ & ->) Hs]; discriminate Hs].
    + destruct (in_range lo hi c') eqn:Hr; simpl.
      * split.
        -- intros [Heq | []]. injection Heq as <- <-. split; [eauto | reflexivity].
        -- intros [(c & _ & ->) Hs]. injection Hs as -> ->. now left.
      * split; [tauto | intros [(c & Hc & ->) Hs]; injection Hs as <- _; congruence].
  - split.
    + destruct (next_char s) as [[ch r] |] eqn:Hn; [| intros []].
      destruct (decimal_value ch) as [v |] eqn:Hv; [| intros []].
      intros [Heq | []]. injection Heq as <- <-.
      apply next_char_split in Hn as (-> & Hc & _).
      split; [exists v; now split | reflexivity].
    + intros [(v & Hc & Hv) ->]. rewrite (next_char_app t rest Hc), Hv. now left.
  - rewrite in_flat_map. split.
    + intros ([t1 s1] & H1 & H2). apply in_map_iff in H2 as ([t2 s2] & Heq & H2).
      injection Heq as <- <-.
      apply IH1 in H1 as [L1 ->]. apply IH2 in H2 as [L2 ->].
      split; [exists t1, t2; auto | now rewrite append_assoc].
    + intros [(t1 & t2 & -> & L1 & L2) ->].
      exists (t1, t2 +:+ rest). split.
      * apply IH1. split; [assumption | now rewrite append_assoc].
      * apply in_map_iff. exists (t2, rest). split; [reflexivity |].
        apply IH2. now split.
  - rewrite in_app_iff, IH1, IH2. tauto.
Qed.

Lemma in_range_between lo hi c :
  in_range lo hi c = true -> In c (chars_between lo hi).
Proof.
  unfold in_range, chars_between. intros Hr.
  apply andb_true_iff in Hr as [H1 H2].
  apply Nat.leb_le in H1, H2.
  apply in_map_iff. exists (nat_of_ascii c). split.
  - apply ascii_nat_embedding.
  - apply in_seq. lia.
Qed.

Lemma lang_enum (r : regex) : forall t, dig_free r = true -> lang r t -> In t (enum r).
Proof.
  induction r as [c | lo hi | | r1 IH1 r2 IH2 | r1 IH1 r2 IH2]; intros t Hf; simpl.
  - intros ->. now left.
  - intros (c & Hc & ->). apply in_map_iff. exists c.
    split; [reflexivity | now apply in_range_between].
  - discriminate Hf.
  - simpl in Hf. apply andb_true_iff in Hf as [F1 F2].
    intros (t1 & t2 & -> & L1 & L2). apply in_flat_map. exists t1.
    split; [now apply IH1 |]. apply in_map_iff. exists t2.
    split; [reflexivity | now apply IH2].
  - simpl in Hf. apply andb_true_iff in Hf as [F1 F2].
    intros [L | L]; apply in_app_iff; [left; now apply IH1 | right; now apply IH2].
Qed.

(** A text is matched when the matcher can consume exactly it. *)
Lemma lang_run (r : regex) (t : string) : In (t, "") (run r t) -> lang r t.
Proof. intros Hin. now apply run_lang in Hin as [L _]. Qed.

Lemma enum_forallb (P : string -> bool) (r : regex) (t : string) :
  dig_free r = true -> forallb P (enum r) = true -> lang r t -> P t = true.
Proof.
  intros Hf Hall L. apply lang_enum in L; [| assumption].
  rewrite forallb_forall in Hall. now apply Hall.
Qed.

(** [re_d] is its plain part or a 1 or 2 followed by a digit character. *)
Lemma re_d_cases t :
  lang re_d t <-> lang re_d_plain t \/ lang (Seq (Rng "1" "2") Dig) t.
Proof. unfold re_d, re_d_plain. simpl. tauto. Qed.

(** *** Digit characters *)

Lemma decimal_value_lt ch v : decimal_value ch = Some v -> (v < 10)%nat.
Proof.
  unfold decimal_value.
  destruct ch as [|c [|c1 s]]; try apply unicode_decimal_lt.
  unfold in_range. destruct (andb _ _) eqn:Hr; [| discriminate].
  intros [= <-]. apply andb_true_iff in Hr as [_ H2].
  apply Nat.leb_le in H2. change (nat_of_ascii "9") with 57 in H2. lia.
Qed.

Lemma not_dash (c : ascii) : nat_of_ascii c <> 45 -> Ascii.eqb c "-" = false.
Proof.
  intros Hn. apply Ascii.eqb_neq. intros ->. now apply Hn.
Qed.

Lemma is_cont_not_dash c : is_cont c = true -> Ascii.eqb c "-" = false.
Proof.
  unfold is_cont. intros Hc. apply andb_true_iff in Hc as [H1 _].
  apply Nat.leb_le in H1. apply not_dash. lia.
Qed.

Lemma wide_not_dash c n : char_width c = S (S n) -> Ascii.eqb c "-" = false.
Proof.
  unfold char_width. intros W. apply not_dash.
  destruct (Nat.ltb_spec (nat_of_ascii c) 128); [discriminate W | lia].
Qed.

Lemma digit_char_no_dash ch v : digit_char ch v -> no_dash ch = true.
Proof.
  intros [Hc Hv]. destruct ch as [|c s]; [discriminate |].
  unfold next_char in Hc.
  destruct (char_width c) as [|[|[|[|[|n]]]]] eqn:W; try discriminate.
  - injection Hc as E. subst s. simpl in *.
    unfold in_range in Hv. destruct (andb _ _) eqn:Hr; [| discriminate].
    apply andb_true_iff in Hr as [H1 _]. apply Nat.leb_le in H1.
    change (nat_of_ascii "0") with 48 in H1.
    rewrite not_dash by lia. reflexivity.
  - destruct s as [|c1 s]; [discriminate |].
    destruct (is_cont c1) eqn:H1; [| discriminate]. injection Hc as E. subst s.
    simpl. now rewrite (wide_not_dash c _ W), (is_cont_not_dash c1 H1).
  - destruct s as [|c1 [|c2 s]]; try discriminate.
    destruct (is_cont c1) eqn:H1; [| discriminate].
    destruct (is_cont c2) eqn:H2; [| discriminate]. injection Hc as E. subst s.
    simpl. now rewrite (wide_not_dash c _ W), (is_cont_not_dash c1 H1),
      (is_cont_not_dash c2 H2).
  - destruct s as [|c1 [|c2 [|c3 s]]]; try discriminate.
    destruct (is_cont c1) eqn:H1; [| discriminate].
    destruct (is_cont c2) eqn:H2; [| discriminate].
    destruct (is_cont c3) eqn:H3; [| discriminate]. injection Hc as E. subst s.
    simpl. now rewrite (wide_not_dash c _ W), (is_cont_not_dash c1 H1),
      (is_cont_not_dash c2 H2), (is_cont_not_dash c3 H3).
Qed.

Lemma digit_char_not_blank ch v : digit_char ch v -> String.eqb ch " " = false.
Proof.
  intros [_ Hv]. apply String.eqb_neq. intros ->. discriminate Hv.
Qed.

Lemma no_dash_app a b : no_dash (a +:+ b) = no_dash a && no_dash b.
Proof.
  induction a as [|c a IH]; [reflexivity |].
  rewrite append_cons. simpl. now rewrite IH, andb_assoc.
Qed.

End Regex.

(** ** The format [%m-%d-%y] *)

Section Format.
Context `{Runtime}.

Lemma in_format_matches s tm td ty rest :
  In (tm, td, ty, rest) (format_matches s) <->
  lang re_m tm /\ lang re_d td /\ lang re_y ty /\
  s = tm +:+ "-" +:+ td +:+ "-" +:+ ty +:+ rest.
Proof.
  unfold format_matches. split.
  - intros Hin.
    apply in_flat_map in Hin as ([tm' s1] & H1 & Hin).
    apply in_flat_map in Hin as ([x s2] & H2 & Hin).
    apply in_flat_map in Hin as ([td' s3] & H3 & Hin).
    apply in_flat_map in Hin as ([x' s4] & H4 & Hin).
    apply in_map_iff in Hin as ([ty' s5] & Heq & H5).
    injection Heq as -> -> -> ->.
    apply run_lang in H1 as [L1 ->]. apply run_lang in H2 as [L2 ->].
    apply run_lang in H3 as [L3 ->]. apply run_lang in H4 as [L4 ->].
    apply run_lang in H5 as [L5 ->].
    simpl in L2, L4. subst x x'. auto.
  - intros (L1 & L2 & L3 & ->).
    apply in_flat_map. exists (tm, "-" +:+ td +:+ "-" +:+ ty +:+ rest).
    split; [now apply run_lang |].
    apply in_flat_map. exists ("-", td +:+ "-" +:+ ty +:+ rest).
    split; [now apply run_lang |].
    apply in_flat_map. exists (td, "-" +:+ ty +:+ rest).
    split; [now apply run_lang |].
    apply in_flat_map. exists ("-", ty +:+ rest).
    split; [now apply run_lang |].
    apply in_map_iff. exists (ty, rest).
    split; [reflexivity | now apply run_lang].
Qed.

Lemma dash_split (t t' X X' : string) :
  no_dash t = true -> no_dash t' = true ->
  t +:+ "-" +:+ X = t' +:+ "-" +:+ X' -> t = t' /\ X = X'.
Proof.
  revert t'. induction t as [|c t IH]; intros [|c' t'] N N' E; string_norm.
  - injection E as ->. auto.
  - injection E as <- _. discriminate N'.
  - injection E as -> _. discriminate N.
  - injection E as -> E. simpl in N, N'.
    apply andb_true_iff in N as [_ N], N' as [_ N'].
    destruct (IH t' N N' E) as [-> ->]. auto.
Qed.

(** Two texts that start with a character start with the same one. *)
Lemma char_split (ch ch' X X' : string) :
  next_char ch = Some (ch, "") -> next_char ch' = Some (ch', "") ->
  ch +:+ X = ch' +:+ X' -> ch = ch' /\ X = X'.
Proof.
  intros Hc Hc' E.
  pose proof (next_char_app ch X Hc) as H1.
  pose proof (next_char_app ch' X' Hc') as H2.
  rewrite E, H2 in H1. injection H1 as -> ->. auto.
Qed.

Lemma re_y_split (t t' X X' : string) :
  lang re_y t -> lang re_y t' -> t +:+ X = t' +:+ X' -> t = t' /\ X = X'.
Proof.
  intros (a & b & -> & (va & Ha & _) & (vb & Hb & _))
         (a' & b' & -> & (va' & Ha' & _) & (vb' & Hb' & _)) E.
  rewrite !append_assoc in E.
  apply char_split in E as [-> E]; [| assumption ..].
  apply char_split in E as [-> ->]; [| assumption ..]. auto.
Qed.

Lemma re_m_no_dash t : lang re_m t -> no_dash t = true.
Proof. apply enum_forallb; vm_compute; reflexivity. Qed.

Lemma re_d_no_dash t : lang re_d t -> no_dash t = true.
Proof.
  intros L. apply re_d_cases in L as [L | L].
  - revert L. apply enum_forallb; vm_compute; reflexivity.
  - destruct L as (a & b & -> & (c & Hc & ->) & (v & Hb)).
    rewrite no_dash_app, (digit_char_no_dash b v Hb), andb_true_r.
    apply in_range_between in Hc. vm_compute in Hc.
    destruct Hc as [<- | [<- | []]]; reflexivity.
Qed.

Lemma head_unique {A} (l : list A) (x : A) :
  In x l -> (forall y, In y l -> y = x) -> head l = Some x.
Proof.
  destruct l as [|y l]; intros Hin Hall; [destruct Hin |].
  simpl. f_equal. apply Hall. now left.
Qed.

(** The first match is the only one: the text up to the first dash is the
    month, the text up to the next dash the day, and two digit characters
    follow. *)
Lemma format_match_iff s tm td ty rest :
  format_match s = Some (tm, td, ty, rest) <->
  lang re_m tm /\ lang re_d td /\ lang re_y ty /\
  s = tm +:+ "-" +:+ td +:+ "-" +:+ ty +:+ rest.
Proof.
  rewrite <- in_format_matches. unfold format_match. split.
  - intros Hh. destruct (format_matches s) as [|y l]; [discriminate Hh |].
    injection Hh as ->. now left.
  - intros Hin. apply head_unique; [assumption |].
    intros [[[tm' td'] ty'] rest'] Hin'.
    apply in_format_matches in Hin as (L1 & L2 & L3 & ->).
    apply in_format_matches in Hin' as (L1' & L2' & L3' & E).
    apply dash_split in E as [-> E]; auto using re_m_no_dash.
    apply dash_split in E as [-> E]; auto using re_d_no_dash.
    apply re_y_split in E as [-> ->]; auto.
Qed.

(** ** The three groups as numbers *)

Lemma py_int_two a b va vb :
  digit_char a va -> digit_char b vb -> py_int (a +:+ b) = 10 * va + vb.
Proof.
  intros Ha Hb. unfold py_int.
  rewrite (chars_cons a b (proj1 Ha)), (chars_single b (proj1 Hb)).
  cbn [fold_left]. unfold int_step.
  rewrite (digit_char_not_blank a va Ha), (digit_char_not_blank b vb Hb).
  destruct Ha as [_ ->], Hb as [_ ->]. lia.
Qed.

Lemma ascii_digit_char c :
  in_range "0" "9" c = true -> digit_char (String c "") (nat_of_ascii c - 48).
Proof.
  intros Hr. unfold digit_char, decimal_value. rewrite Hr. split; [| reflexivity].
  unfold next_char, char_width. unfold in_range in Hr.
  apply andb_true_iff in Hr as [_ H2]. apply Nat.leb_le in H2.
  change (nat_of_ascii "9") with 57 in H2.
  destruct (Nat.ltb_spec (nat_of_ascii c) 128); [reflexivity | lia].
Qed.

Ltac pick_writing :=
  first [ reflexivity
        | lia
        | left; reflexivity
        | right; reflexivity
        | right; left; reflexivity
        | right; right; left; split; [vm_compute; lia | reflexivity] ].

Ltac each_text H :=
  apply lang_enum in H; [| reflexivity]; vm_compute in H;
  repeat (destruct H as [<- | H]; [split; [vm_compute; lia | pick_writing] |]);
  destruct H.

Lemma re_m_number t :
  lang re_m t -> (1 <= py_int t <= 12)%nat /\ month_written (py_int t) t.
Proof. intros L. each_text L. Qed.

Lemma re_d_number t :
  lang re_d t -> (1 <= py_int t <= 31)%nat /\ day_written (py_int t) t.
Proof.
  intros L. apply re_d_cases in L as [L | L].
  - each_text L.
  - destruct L as (a & b & -> & (c & Hc & ->) & (v & Hb)).
    pose proof (decimal_value_lt b v (proj2 Hb)) as Hv.
    apply in_range_between in Hc. vm_compute in Hc.
    destruct Hc as [<- | [<- | []]].
    + rewrite (py_int_two "1" b 1 v) by (try apply (ascii_digit_char "1"); auto).
      split; [lia |]. do 3 right. exists 1, b, v. auto.
    + rewrite (py_int_two "2" b 2 v) by (try apply (ascii_digit_char "2"); auto).
      split; [lia |]. do 3 right. exists 2, b, v. auto.
Qed.

Lemma re_y_number t :
  lang re_y t -> (py_int t < 100)%nat /\ year_written (py_int t) t.
Proof.
  intros (a & b & -> & (va & Ha) & (vb & Hb)).
  pose proof (decimal_value_lt a va (proj2 Ha)).
  pose proof (decimal_value_lt b vb (proj2 Hb)).
  rewrite (py_int_two a b va vb Ha Hb). split; [lia |].
  exists a, b, va, vb. auto.
Qed.

Ltac matched := apply lang_run; vm_compute; repeat (first [left; reflexivity | right]).

Lemma month_written_lang m t :
  (1 <= m <= 12)%nat -> month_written m t -> lang re_m t /\ py_int t = m.
Proof.
  intros Hm Hw.
  do 13 (destruct m as [|m];
         [try lia; destruct Hw as [-> | ->]; (split; [matched | reflexivity]) |]).
  lia.
Qed.

Lemma day_written_lang d t :
  (1 <= d <= 31)%nat -> day_written d t -> lang re_d t /\ py_int t = d.
Proof.
  intros Hd [Hw | [Hw | [Hw | Hw]]].
  - subst t.
    do 32 (destruct d as [|d]; [try lia; (split; [matched | reflexivity]) |]). lia.
  - subst t.
    do 32 (destruct d as [|d]; [try lia; (split; [matched | reflexivity]) |]). lia.
  - destruct Hw as [Hlt ->].
    do 10 (destruct d as [|d]; [try lia; (split; [matched | reflexivity]) |]). lia.
  - destruct Hw as (c & ch & v & Hc & Hch & -> & ->).
    destruct Hc as [-> | ->].
    + change (str_nat 1) with "1". split.
      * apply re_d_cases. right. exists "1", ch.
        split; [reflexivity |]. split; [| now exists v].
        exists "1"%char. now split.
      * apply py_int_two; [| assumption]. now apply (ascii_digit_char "1").
    + change (str_nat 2) with "2". split.
      * apply re_d_cases. right. exists "2", ch.
        split; [reflexivity |]. split; [| now exists v].
        exists "2"%char. now split.
      * apply py_int_two; [| assumption]. now apply (ascii_digit_char "2").
Qed.

Lemma year_written_lang y t : year_written y t -> lang re_y t /\ py_int t = y.
Proof.
  intros (a & b & va & vb & Ha & Hb & -> & ->).
  split; [| now apply py_int_two].
  exists a, b. split; [reflexivity |]. split; [now exists va | now exists vb].
Qed.

(** A number below 100 in two digits 0..9 is a year as the format reads it. *)
Lemma two_digits_year_written y : (y < 100)%nat -> year_written y (two_digits y).
Proof.
  intros Hy.
  assert (forall c, in_range "0" "9" c = true ->
            digit_char (String c "") (nat_of_ascii c - 48)) as Hd
    by apply ascii_digit_char.
  do 100 (destruct y as [|y];
    [match goal with
     | |- year_written _ ?t =>
         let t' := eval vm_compute in t in
         match t' with
         | String ?a (String ?b EmptyString) =>
             exists (String a ""), (String b ""),
                    (nat_of_ascii a - 48), (nat_of_ascii b - 48);
             repeat split; try (apply Hd; reflexivity); reflexivity
         end
     end |]).
  lia.
Qed.

Lemma days_in_month_le y m : (days_in_month y m <= 31)%nat.
Proof.
  unfold days_in_month.
  do 12 (destruct m as [|m]; [try destruct (is_leap y); lia |]). lia.
Qed.

(** [strptime] succeeds exactly on the texts of [date_text]. *)
Lemma strptime_date_text s : is_ok (strptime s) = true <-> date_text s.
Proof.
  unfold strptime. split.
  - destruct (format_match s) as [[[[tm td] ty] rest] |] eqn:Hm; [| discriminate].
    apply format_match_iff in Hm as (Lm & Ld & Ly & ->).
    destruct (String.eqb_spec rest "") as [-> | Hne]; cbv [negb]; [| discriminate].
    destruct (andb _ _) eqn:Hday; [intros _ | discriminate].
    apply andb_true_iff in Hday as [D1 D2].
    apply Nat.leb_le in D1, D2.
    apply re_m_number in Lm as [Rm Wm]. apply re_d_number in Ld as [Rd Wd].
    apply re_y_number in Ly as [Ry Wy].
    exists (py_int tm), (py_int td), (py_int ty), tm, td, ty.
    rewrite append_nil_r. unfold real_date. auto 10.
  - intros (m & d & y & tm & td & ty & (Rm & Rd & Ry) & Wm & Wd & Wy & ->).
    pose proof (days_in_month_le (full_year y) m) as Hle.
    destruct (month_written_lang m tm Rm Wm) as [Lm Pm].
    destruct (day_written_lang d td ltac:(lia) Wd) as [Ld Pd].
    destruct (year_written_lang y ty Wy) as [Ly Py].
    assert (format_match (tm +:+ "-" +:+ td +:+ "-" +:+ ty)
            = Some (tm, td, ty, "")) as ->.
    { apply format_match_iff. now rewrite append_nil_r. }
    cbv [negb String.eqb]. rewrite Pm, Pd, Py.
    destruct Rd as [D1 D2]. apply Nat.leb_le in D1, D2.
    now rewrite D1, D2.
Qed.

End Format.

(** ** The strict reading of MM-DD-YY *)

Section Strict.
Context `{Runtime}.

Lemma two_digits_length n : (n < 100)%nat -> String.length (two_digits n) = 2.
Proof.
  intros Hn. do 100 (destruct n as [|n]; [reflexivity |]). lia.
Qed.

Lemma two_digits_no_dash n : (n < 100)%nat -> no_dash (two_digits n) = true.
Proof.
  intros Hn. do 100 (destruct n as [|n]; [reflexivity |]). lia.
Qed.

Lemma py_int_two_digits n : (n < 100)%nat -> py_int (two_digits n) = n.
Proof.
  intros Hn. do 100 (destruct n as [|n]; [reflexivity |]). lia.
Qed.

Lemma mm_dd_yy_length s : mm_dd_yy s -> String.length s = 8.
Proof.
  intros (m & d & y & (Rm & Rd & Ry) & ->).
  pose proof (days_in_month_le (full_year y) m).
  rewrite !length_append, !two_digits_length by lia. reflexivity.
Qed.

(** Every text in the strict form is accepted. *)
Lemma mm_dd_yy_date_text s : mm_dd_yy s -> date_text s.
Proof.
  intros (m & d & y & Hr & ->).
  exists m, d, y, (two_digits m), (two_digits d), (two_digits y).
  unfold month_written, day_written. split; [assumption |].
  split; [auto |]. split; [auto |]. split; [| reflexivity].
  apply two_digits_year_written. apply Hr.
Qed.

(** On a text of the shape NN-NN-NN the check is the calendar check. *)
Lemma two_digit_text_accepted m d y :
  (m < 100)%nat -> (d < 100)%nat -> (y < 100)%nat ->
  is_ok (strptime (two_digits m +:+ "-" +:+ two_digits d +:+ "-" +:+ two_digits y)) = true
  <-> real_date y m d.
Proof.
  intros Hm Hd Hy. rewrite strptime_date_text. split.
  - intros (m' & d' & y' & tm & td & ty & (Rm & Rd & Ry) & Wm & Wd & Wy & E).
    pose proof (days_in_month_le (full_year y') m') as Hle.
    destruct (month_written_lang m' tm Rm Wm) as [Lm Pm].
    destruct (day_written_lang d' td ltac:(lia) Wd) as [Ld Pd].
    destruct (year_written_lang y' ty Wy) as [Ly Py].
    symmetry in E.
    apply dash_split in E as [-> E];
      [| now apply re_m_no_dash | now apply two_digits_no_dash].
    apply dash_split in E as [-> ->];
      [| now apply re_d_no_dash | now apply two_digits_no_dash].
    rewrite py_int_two_digits in Pm, Pd, Py by assumption. subst.
    now repeat split.
  - intros Hr. apply mm_dd_yy_date_text. now exists m, d, y.
Qed.

End Strict.

(** ** Field by field: the schema against the six constraints *)

Section FieldLemmas.
Context `{Runtime}.




Lemma float_ge0_non_negative f : float_ge0 f = true <-> non_negative f.
Proof.
  destruct f as [q | [] |]; simpl.
  - apply Qle_bool_iff.
  - split; discriminate.
  - split; reflexivity.
  - split; [discriminate | contradiction].
Qed.

Lemma order_id_field_ok row :
  is_ok (order_id_field row) = true <-> order_id_holds row.
Proof.
  unfold order_id_field, field, order_id_holds, str_validator. split.
  - destruct (row !! "order_id") as [[s | | |] |]; try discriminate.
    destruct s as [|c s]; [discriminate |]. intros _. eexists. split; [reflexivity | discriminate].
  - intros (s & -> & Hs). destruct s as [|c s]; [congruence | reflexivity].
Qed.






(** On text, the date field is accepted or fails with the script's message. *)
Lemma date_field_text row s :
  row !! "date" = Some (PyStr s) ->
  date_field row =
    if is_ok (strptime s) then Ok s
    else Err {| loc := "date"; err := value_error "Date must be in format MM-DD-YY" |}.
Proof.
  intros Hs. unfold date_field, field, str_validator, after, check_date_format.
  rewrite Hs. simpl. now destruct (strptime s).
Qed.


(** The model is built exactly when every field is accepted, and the
    errors are those of the fields, in the order of the class. *)
Lemma is_valid_fields row :
  is_valid row =
  is_ok (order_id_field row) && is_ok (qty_field row) && is_ok (amount_field row) &&
  is_ok (currency_field row) && is_ok (ship_country_field row) && is_ok (date_field row).
Proof.
  unfold is_valid, validate.
  destruct (order_id_field row), (qty_field row), (amount_field row),
    (currency_field row), (ship_country_field row), (date_field row); reflexivity.
Qed.

Lemma errors_fields row :
  errors row =
  errors_of (order_id_field row) ++ errors_of (qty_field row) ++
  errors_of (amount_field row) ++ errors_of (currency_field row) ++
  errors_of (ship_country_field row) ++ errors_of (date_field row).
Proof.
  unfold errors, validate.
  destruct (order_id_field row), (qty_field row), (amount_field row),
    (currency_field row), (ship_country_field row), (date_field row); reflexivity.
Qed.


End FieldLemmas.

(** ** The loop: a stable partition *)

Section LoopLemmas.
Context `{Runtime}.

Lemma loop_body_valid st index row :
  is_valid row = true ->
  valid_rows (loop_body st (index, row)) = valid_rows st ++ [row] /\
  invalid_rows (loop_body st (index, row)) = invalid_rows st.
Proof.
  unfold is_valid, loop_body. destruct (validate row); [auto | discriminate].
Qed.

Lemma loop_body_invalid st index row :
  is_valid row = false ->
  valid_rows (loop_body st (index, row)) = valid_rows st /\
  invalid_rows (loop_body st (index, row)) = invalid_rows st ++ [annotated row].
Proof.
  unfold is_valid, annotated, errors, loop_body.
  destruct (validate row); [discriminate | auto].
Qed.

Lemma fold_loop_body items : forall st,
  valid_rows (fold_left loop_body items st) =
    valid_rows st ++ List.filter is_valid (List.map snd items) /\
  invalid_rows (fold_left loop_body items st) =
    invalid_rows st ++
    List.map annotated (List.filter (fun row => negb (is_valid row)) (List.map snd items)).
Proof.
  induction items as [|[index row] items IH]; intros st.
  - simpl. now rewrite !app_nil_r.
  - cbn [fold_left List.map snd List.filter].
    destruct (IH (loop_body st (index, row))) as [-> ->].
    destruct (is_valid row) eqn:Hv; cbn [negb List.map].
    + destruct (loop_body_valid st index row Hv) as [-> ->].
      now rewrite <- app_assoc.
    + destruct (loop_body_invalid st index row Hv) as [-> ->].
      now rewrite <- app_assoc.
Qed.

Lemma map_snd_combine_seq (df : list Row) : forall start,
  List.map snd (combine (seq start (length df)) df) = df.
Proof.
  induction df as [|row df IH]; intros start; simpl; [reflexivity |].
  now rewrite IH.
Qed.

Lemma run_loop_valid df : valid_rows (run_loop df) = List.filter is_valid df.
Proof.
  unfold run_loop, validate_rows, iterrows.
  destruct (fold_loop_body (combine (seq 0 (length df)) df)
              {| valid_rows := []; invalid_rows := []; printed := loading df |}) as [-> _].
  now rewrite map_snd_combine_seq.
Qed.

Lemma run_loop_invalid df :
  invalid_rows (run_loop df) =
  List.map annotated (List.filter (fun row => negb (is_valid row)) df).
Proof.
  unfold run_loop, validate_rows, iterrows.
  destruct (fold_loop_body (combine (seq 0 (length df)) df)
              {| valid_rows := []; invalid_rows := []; printed := loading df |}) as [_ ->].
  now rewrite map_snd_combine_seq.
Qed.

Lemma filter_split_length {A} (f : A -> bool) (l : list A) :
  length (List.filter f l) + length (List.filter (fun x => negb (f x)) l) = length l.
Proof.
  induction l as [|x l IH]; simpl; [reflexivity |].
  destruct (f x); simpl; lia.
Qed.

Lemma filter_nil_forallb {A} (f : A -> bool) (l : list A) :
  (0 <? length (List.filter (fun x => negb (f x)) l)) = negb (forallb f l).
Proof.
  induction l as [|x l IH]; simpl; [reflexivity |].
  destruct (f x); simpl; [assumption | reflexivity].
Qed.

Lemma filter_some_existsb {A} (f : A -> bool) (l : list A) :
  (0 <? length (List.filter f l)) = existsb f l.
Proof.
  induction l as [|x l IH]; simpl; [reflexivity |].
  destruct (f x); simpl; [reflexivity | assumption].
Qed.

(** ** What the run leaves behind, field by field *)

Lemma main_valid_csv env df :
  valid_csv (main env df) =
  if (0 <? length (valid_rows (run_loop df))) then Some (valid_rows (run_loop df)) else None.
Proof.
  unfold main.
  destruct (0 <? length (valid_rows (run_loop df)));
    destruct (0 <? length (invalid_rows (run_loop df)));
    try destruct (send_slack_notification _ _ _); reflexivity.
Qed.

Lemma main_invalid_csv env df :
  invalid_csv (main env df) =
  if (0 <? invalid_count df) then Some (invalid_rows (run_loop df)) else None.
Proof.
  unfold main, invalid_count.
  destruct (0 <? length (valid_rows (run_loop df)));
    destruct (0 <? length (invalid_rows (run_loop df)));
    try destruct (send_slack_notification _ _ _); reflexivity.
Qed.

Lemma main_exit_code env df :
  exit_code (main env df) = if (0 <? invalid_count df) then 1%Z else 0%Z.
Proof.
  unfold main, invalid_count.
  destruct (0 <? length (valid_rows (run_loop df)));
    destruct (0 <? length (invalid_rows (run_loop df)));
    try destruct (send_slack_notification _ _ _); reflexivity.
Qed.

Lemma main_posted env df :
  posted (main env df) =
  if (0 <? invalid_count df)
  then snd (send_slack_notification env (Z.of_nat (invalid_count df)) (Z.of_nat (length df)))
  else None.
Proof.
  unfold main, invalid_count.
  destruct (0 <? length (valid_rows (run_loop df)));
    destruct (0 <? length (invalid_rows (run_loop df)));
    try destruct (send_slack_notification _ _ _); reflexivity.
Qed.

Lemma main_stdout_alert env df line :
  (0 <? invalid_count df) = true ->
  In line (fst (send_slack_notification env (Z.of_nat (invalid_count df))
                                        (Z.of_nat (length df)))) ->
  In line (stdout (main env df)).
Proof.
  unfold main, invalid_count. intros -> Hin.
  destruct (send_slack_notification _ _ _) as [lines sent]. simpl in Hin.
  destruct (0 <? length (valid_rows (run_loop df))); cbn [stdout];
    rewrite !in_app_iff; tauto.
Qed.

Lemma invalid_count_filter df :
  invalid_count df = length (List.filter (fun row => negb (is_valid row)) df).
Proof. unfold invalid_count. now rewrite run_loop_invalid, length_map. Qed.

Lemma some_invalid df : (0 <? invalid_count df) = negb (forallb is_valid df).
Proof. rewrite invalid_count_filter. apply filter_nil_forallb. Qed.

End LoopLemmas.

(** ** The claims *)

Section Claims.
Context `{Runtime}.


Lemma errors_of_field_loc {A} name (validator : PyValue -> result ErrorType A) row :
  List.map loc (errors_of (field name validator row)) =
  if is_ok (field name validator row) then [] else [name].
Proof.
  unfold field. destruct (row !! name) as [v |]; [| reflexivity].
  now destruct (validator v).
Qed.

Lemma violated_fields row :
  violated row =
  (if is_ok (order_id_field row) then [] else ["order_id"]) ++
  (if is_ok (qty_field row) then [] else ["qty"]) ++
  (if is_ok (amount_field row) then [] else ["amount"]) ++
  (if is_ok (currency_field row) then [] else ["currency"]) ++
  (if is_ok (ship_country_field row) then [] else ["ship_country"]) ++
  (if is_ok (date_field row) then [] else ["date"]).
Proof.
  unfold violated, field_names, field_passes. cbn [List.filter String.eqb Ascii.eqb Bool.eqb].
  destruct (is_ok (order_id_field row)), (is_ok (qty_field row)),
    (is_ok (amount_field row)), (is_ok (currency_field row)),
    (is_ok (ship_country_field row)), (is_ok (date_field row)); reflexivity.
Qed.

Lemma errors_loc_violated row : List.map loc (errors row) = violated row.
Proof.
  rewrite errors_fields, violated_fields, !map_app.
  unfold order_id_field, qty_field, amount_field, currency_field,
    ship_country_field, date_field.
  now rewrite !errors_of_field_loc.
Qed.



Lemma partition_counts_aux (df : list Row) :
  length (valid_rows (run_loop df)) + length (invalid_rows (run_loop df)) = length df.
Proof.
  rewrite run_loop_valid, run_loop_invalid, length_map.
  apply filter_split_length.
Qed.

(** C3. After the loop the valid rows and the invalid rows together are
    as many as the rows of the table. *)
Theorem partition_counts (df : list Row) :
  length (valid_rows (run_loop df)) + length (invalid_rows (run_loop df)) = length df.
Proof. apply partition_counts_aux. Qed.

(** C4. The partition is stable: the valid list is the table with the
    invalid rows left out, the invalid list is the table with the valid
    rows left out (each row annotated), both in the order of the table. *)
Theorem partition_stable (df : list Row) :
  valid_rows (run_loop df) = List.filter is_valid df /\
  invalid_rows (run_loop df) =
    List.map annotated (List.filter (fun row => negb (is_valid row)) df).
Proof. split; [apply run_loop_valid | apply run_loop_invalid]. Qed.

(** C5. The exit status is 1 when some row is invalid and 0 when every
    row is valid, the empty table included; it is never anything else. *)
Theorem exit_code_by_validity (env : Env) (df : list Row) :
  exit_code (main env df) = (if forallb is_valid df then 0 else 1)%Z /\
  ((exists row, In row df /\ is_valid row = false) -> exit_code (main env df) = 1%Z) /\
  ((forall row, In row df -> is_valid row = true) -> exit_code (main env df) = 0%Z) /\
  (exit_code (main env df) = 0%Z \/ exit_code (main env df) = 1%Z) /\
  exit_code (main env []) = 0%Z.
Proof.
  assert (exit_code (main env df) = (if forallb is_valid df then 0 else 1)%Z) as Hx.
  { rewrite main_exit_code, some_invalid. now destruct (forallb is_valid df). }
  split; [assumption |]. rewrite Hx. repeat split.
  - intros (row & Hin & Hv). destruct (forallb is_valid df) eqn:Hall; [| reflexivity].
    rewrite forallb_forall in Hall. rewrite (Hall row Hin) in Hv. discriminate.
  - intros Hall. apply forallb_forall in Hall. now rewrite Hall.
  - destruct (forallb is_valid df); auto.
Qed.

(** C6. A file is written only for a partition that has rows: the valid
    file exactly when some row is valid, the invalid file exactly when
    some row is invalid.  For the empty table nothing is written, nothing
    is posted or printed as an alert, and the exit status is 0. *)
Theorem empty_partition_not_written (env : Env) (df : list Row) :
  (is_Some (valid_csv (main env df)) <-> exists row, In row df /\ is_valid row = true) /\
  (is_Some (invalid_csv (main env df)) <-> exists row, In row df /\ is_valid row = false) /\
  (valid_csv (main env []) = None /\
   invalid_csv (main env []) = None /\
   posted (main env []) = None /\
   ~ In "📢 SLACK NOTIFICATION (Mock - No Webhook Configured)" (stdout (main env [])) /\
   ~ In (alert_text 0 0) (stdout (main env [])) /\
   exit_code (main env []) = 0%Z).
Proof.
  split; [| split].
  - rewrite main_valid_csv, run_loop_valid, filter_some_existsb, <- existsb_exists.
    destruct (existsb is_valid df); split; intros Hs;
      try discriminate; try (now eexists); now destruct Hs.
  - rewrite main_invalid_csv, some_invalid.
    destruct (forallb is_valid df) eqn:Hall; simpl.
    + rewrite forallb_forall in Hall. split; [intros [x Hx]; discriminate |].
      intros (row & Hin & Hv). rewrite (Hall row Hin) in Hv. discriminate.
    + split; [intros _ | now eexists].
      apply not_true_iff_false in Hall. rewrite forallb_forall in Hall.
      destruct (existsb (fun row => negb (is_valid row)) df) eqn:Hex.
      * apply existsb_exists in Hex as (row & Hin & Hv).
        exists row. split; [assumption | now apply negb_true_iff].
      * exfalso. apply Hall. intros row Hin.
        destruct (is_valid row) eqn:Hv; [reflexivity |].
        assert (existsb (fun row => negb (is_valid row)) df = true) as Hy
          by (apply existsb_exists; exists row; now rewrite Hv).
        congruence.
  - repeat split; try reflexivity.
    + vm_compute. intros Hin.
      repeat (destruct Hin as [Heq | Hin]; [discriminate Heq |]). exact Hin.
    + vm_compute. intros Hin.
      repeat (destruct Hin as [Heq | Hin]; [discriminate Heq |]). exact Hin.
Qed.

(** C7, as the code has it by design.  For a row whose [date] is text
    of the shape NN-NN-NN (two digits 0..9 each), the field is accepted
    exactly when the text is a real calendar date, month first (month 13
    or day 32 is rejected, the 29th of February only in a leap year);
    whenever a text is not accepted, the error is the message
    "Date must be in format MM-DD-YY"; a date that is not text (a number,
    a boolean, an empty cell) is rejected with the string-type error
    instead.  What happens to text of another shape is left open here. *)
Theorem date_field_checks_format (row : Row) (m d y : nat) (s : string) (v : PyValue) :
  ((m < 100)%nat -> (d < 100)%nat -> (y < 100)%nat ->
   let text := two_digits m +:+ "-" +:+ two_digits d +:+ "-" +:+ two_digits y in
   date_field (<["date" := PyStr text]> row) = Ok text <-> real_date y m d) /\
  (date_field (<["date" := PyStr s]> row) = Ok s \/
   date_field (<["date" := PyStr s]> row) =
     Err {| loc := "date"; err := value_error "Date must be in format MM-DD-YY" |}) /\
  match v with
  | PyStr _ => True
  | _ => date_field (<["date" := v]> row) = Err {| loc := "date"; err := string_type |}
  end.
Proof.
  split; [| split].
  - intros Hm Hd Hy text.
    rewrite (date_field_text (<["date" := PyStr text]> row) text) by apply lookup_insert_eq.
    rewrite <- (two_digit_text_accepted m d y Hm Hd Hy). fold text.
    destruct (is_ok (strptime text)); split; congruence.
  - rewrite (date_field_text (<["date" := PyStr s]> row) s) by apply lookup_insert_eq.
    destruct (is_ok (strptime s)); auto.
  - destruct v; [exact I | ..];
      unfold date_field, field; rewrite lookup_insert_eq; reflexivity.
Qed.

Lemma send_console env invalid total :
  SLACK_WEBHOOK_URL env = "" ->
  In (alert_text invalid total) (fst (send_slack_notification env invalid total)) /\
  snd (send_slack_notification env invalid total) = None.
Proof.
  intros Hurl. unfold send_slack_notification. rewrite Hurl. simpl. auto 10.
Qed.

Lemma send_webhook env invalid total :
  SLACK_WEBHOOK_URL env <> "" ->
  snd (send_slack_notification env invalid total) =
    Some (SLACK_WEBHOOK_URL env, alert_text invalid total) /\
  match post env (SLACK_WEBHOOK_URL env) (alert_text invalid total) with
  | Response status_code =>
      status_code = 200%Z \/
      In (nl +:+ "❌ Slack notification failed: " +:+ str_Z status_code)
         (fst (send_slack_notification env invalid total))
  | Raised e =>
      In (nl +:+ "❌ Error sending Slack notification: " +:+ e)
         (fst (send_slack_notification env invalid total))
  end.
Proof.
  intros Hurl. unfold send_slack_notification.
  apply String.eqb_neq in Hurl. rewrite Hurl.
  destruct (post env _ _) as [code | e]; [| simpl; auto].
  destruct (Z.eqb_spec code 200); simpl; auto.
Qed.

Lemma alert_text_contains invalid total :
  contains ("Total rows: " +:+ str_Z total) (alert_text invalid total) /\
  contains ("Valid rows: " +:+ str_Z (total - invalid)) (alert_text invalid total) /\
  contains ("Invalid rows: " +:+ str_Z invalid) (alert_text invalid total) /\
  contains "invalid_rows.csv" (alert_text invalid total).
Proof.
  unfold contains, alert_text. repeat split.
  - exists ("⚠️ *Amazon Orders Validation Alert*" +:+ nl +:+ nl +:+ "• ").
    eexists. rewrite !append_assoc. reflexivity.
  - exists ("⚠️ *Amazon Orders Validation Alert*" +:+ nl +:+ nl +:+
            "• Total rows: " +:+ str_Z total +:+ nl +:+ "• ").
    eexists. rewrite !append_assoc. reflexivity.
  - exists ("⚠️ *Amazon Orders Validation Alert*" +:+ nl +:+ nl +:+
            "• Total rows: " +:+ str_Z total +:+ nl +:+
            "• Valid rows: " +:+ str_Z (total - invalid) +:+ nl +:+ "• ").
    eexists. rewrite !append_assoc. reflexivity.
  - exists ("⚠️ *Amazon Orders Validation Alert*" +:+ nl +:+ nl +:+
            "• Total rows: " +:+ str_Z total +:+ nl +:+
            "• Valid rows: " +:+ str_Z (total - invalid) +:+ nl +:+
            "• Invalid rows: " +:+ str_Z invalid +:+ nl +:+ nl +:+
            "❌ Please check `"), "` for details.".
    rewrite !append_assoc. reflexivity.
Qed.

(** C8. When some row is invalid, the alert text is built; it holds the
    total, valid and invalid counts and points to invalid_rows.csv.  With
    no webhook configured the text is printed; with a webhook it is
    posted, and a response other than 200 or an exception is printed and
    leaves the exit status at 1. *)
Theorem alert_on_invalid (env : Env) (df : list Row) :
  (0 < invalid_count df)%nat ->
  let message := alert_text (Z.of_nat (invalid_count df)) (Z.of_nat (length df)) in
  (contains ("Total rows: " +:+ str_Z (Z.of_nat (length df))) message /\
   contains ("Valid rows: " +:+ str_Z (Z.of_nat (length (valid_rows (run_loop df))))) message /\
   contains ("Invalid rows: " +:+ str_Z (Z.of_nat (invalid_count df))) message /\
   contains "invalid_rows.csv" message) /\
  (SLACK_WEBHOOK_URL env = "" ->
   In message (stdout (main env df)) /\ posted (main env df) = None) /\
  (SLACK_WEBHOOK_URL env <> "" ->
   posted (main env df) = Some (SLACK_WEBHOOK_URL env, message) /\
   match post env (SLACK_WEBHOOK_URL env) message with
   | Response status_code =>
       status_code = 200%Z \/
       In (nl +:+ "❌ Slack notification failed: " +:+ str_Z status_code)
          (stdout (main env df))
   | Raised e =>
       In (nl +:+ "❌ Error sending Slack notification: " +:+ e) (stdout (main env df))
   end) /\
  exit_code (main env df) = 1%Z.
Proof.
  intros Hpos message. apply Nat.ltb_lt in Hpos.
  split; [| split; [| split]].
  - pose proof (alert_text_contains (Z.of_nat (invalid_count df)) (Z.of_nat (length df)))
      as (C1 & C2 & C3 & C4).
    replace (Z.of_nat (length df) - Z.of_nat (invalid_count df))%Z
      with (Z.of_nat (length (valid_rows (run_loop df)))) in C2; [auto |].
    pose proof (partition_counts_aux df). unfold invalid_count. lia.
  - intros Hurl. rewrite main_posted, Hpos.
    destruct (send_console env (Z.of_nat (invalid_count df)) (Z.of_nat (length df)) Hurl)
      as [Hin Hnone].
    split; [now apply main_stdout_alert | assumption].
  - intros Hurl. rewrite main_posted, Hpos.
    destruct (send_webhook env (Z.of_nat (invalid_count df)) (Z.of_nat (length df)) Hurl)
      as [Hsent Hlog].
    split; [assumption |]. fold message in Hlog.
    destruct (post env (SLACK_WEBHOOK_URL env) message) as [code | e].
    + destruct Hlog as [-> | Hin]; [now left | right; now apply main_stdout_alert].
    + now apply main_stdout_alert.
  - now rewrite main_exit_code, Hpos.
Qed.

(** C9. The partitions and the exit status are a function of the table
    alone (neither the webhook nor the network has a say), so two runs on
    the same table agree; and what a row is classified as depends only on
    its own six fields, not on other columns, its position or the rows
    before it. *)
Theorem run_deterministic (env1 env2 : Env) (df : list Row) (row1 row2 : Row) :
  (forall name, In name field_names -> row1 !! name = row2 !! name) ->
  (valid_csv (main env1 df) = valid_csv (main env2 df) /\
   invalid_csv (main env1 df) = invalid_csv (main env2 df) /\
   exit_code (main env1 df) = exit_code (main env2 df)) /\
  validate row1 = validate row2 /\
  (forall st index,
     valid_rows (loop_body st (index, row1)) =
       valid_rows st ++ (if is_valid row1 then [row1] else []) /\
     invalid_rows (loop_body st (index, row1)) =
       invalid_rows st ++ (if is_valid row1 then [] else [annotated row1])).
Proof.
  intros Hsame. split; [| split].
  - now rewrite !main_valid_csv, !main_invalid_csv, !main_exit_code.
  - unfold validate, order_id_field, qty_field, amount_field, currency_field,
      ship_country_field, date_field, field.
    rewrite !Hsame by (unfold field_names; simpl; tauto). reflexivity.
  - intros st index. destruct (is_valid row1) eqn:Hv.
    + destruct (loop_body_valid st index row1 Hv) as [-> ->].
      now rewrite app_nil_r.
    + destruct (loop_body_invalid st index row1 Hv) as [-> ->].
      now rewrite app_nil_r.
Qed.

(** C10. The rows of the valid list, and of the valid file, are rows of
    the table as they were read: the model that validation builds is not
    stored.  The row with [qty] True is kept with True although the model
    holds 1. *)
Theorem valid_rows_unchanged (env : Env) (df : list Row) :
  valid_csv (main env df) =
    (if existsb is_valid df then Some (List.filter is_valid df) else None) /\
  Forall (fun row => In row df /\ is_valid row = true) (valid_rows (run_loop df)) /\
  ((exists order, validate row_flag = Ok order /\ qty order = 1%Z) /\
   row_flag !! "qty" = Some (PyBool true) /\
   valid_csv (main env [row_flag]) = Some [row_flag]).
Proof.
  split; [| split].
  - now rewrite main_valid_csv, run_loop_valid, filter_some_existsb.
  - rewrite run_loop_valid. apply List.Forall_forall. intros row Hin.
    now apply filter_In in Hin.
  - split; [eexists; split; vm_compute; reflexivity |].
    split; vm_compute; reflexivity.
Qed.

End Claims.

(** C7, as stated, fails: the text 1-5-24 is accepted although it is not
    in the two-digit form, and a date that is not text (an empty cell,
    read as nan) fails with another error than the format message. *)
Lemma date_accepts_single_digits :
  (date_field (H := example_runtime) (<["date" := PyStr "1-5-24"]> ∅) = Ok "1-5-24" /\
   ~ mm_dd_yy "1-5-24") /\
  date_field (H := example_runtime) (<["date" := PyFloat FNan]> ∅) =
    Err {| loc := "date"; err := string_type |}.
Proof.
  split; [split |].
  - vm_compute. reflexivity.
  - intros Hs. apply mm_dd_yy_length in Hs. discriminate Hs.
  - vm_compute. reflexivity.
Qed.

(** ** The theorems at concrete rows *)



Lemma exit_code_by_validity_witness :
  exit_code (main (H := example_runtime) console_env [row_A1; row_A2]) = 1%Z.
Proof.
  apply (exit_code_by_validity (H := example_runtime) console_env [row_A1; row_A2]).
  exists row_A2. split; [simpl; auto | vm_compute; reflexivity].
Defined.

Lemma empty_partition_not_written_witness :
  is_Some (invalid_csv (main (H := example_runtime) console_env [row_A2])) /\
  valid_csv (main (H := example_runtime) console_env [row_A2]) = None.
Proof.
  split.
  - apply (empty_partition_not_written (H := example_runtime) console_env [row_A2]).
    exists row_A2. split; [simpl; auto | vm_compute; reflexivity].
  - vm_compute. reflexivity.
Defined.

Lemma date_field_checks_format_witness :
  date_field (H := example_runtime) (<["date" := PyStr "02-29-24"]> ∅) = Ok "02-29-24".
Proof.
  apply (date_field_checks_format (H := example_runtime) ∅ 2 29 24 "" (PyStr ""));
    try lia.
  vm_compute. repeat split; lia.
Defined.

Lemma alert_on_invalid_witness :
  In (alert_text 1 2) (stdout (main (H := example_runtime) console_env [row_A1; row_A2])) /\
  posted (main (H := example_runtime) console_env [row_A1; row_A2]) = None.
Proof.
  apply (alert_on_invalid (H := example_runtime) console_env [row_A1; row_A2]).
  - vm_compute. lia.
  - reflexivity.
Defined.

Lemma run_deterministic_witness :
  validate (H := example_runtime) row_A1 =
  validate (H := example_runtime) (<["note" := PyStr "gift"]> row_A1).
Proof.
  apply (run_deterministic (H := example_runtime) console_env console_env []
           row_A1 (<["note" := PyStr "gift"]> row_A1)).
  intros name Hin. simpl in Hin.
  repeat (destruct Hin as [<- | Hin]; [vm_compute; reflexivity |]).
  destruct Hin.
Defined.

(** ** More about the schema *)

Section SchemaFacts.
Context `{Runtime}.

Lemma field_missing {A} name (validator : PyValue -> result ErrorType A) row :
  row !! name = None ->
  field name validator row = Err {| loc := name; err := missing |}.
Proof. intros Hn. unfold field. now rewrite Hn. Qed.

Ltac field_case Hf :=
  rewrite errors_fields, is_valid_fields;
  unfold order_id_field, qty_field, amount_field, currency_field,
    ship_country_field, date_field in *;
  rewrite Hf; cbn [is_ok errors_of andb];
  rewrite ?andb_false_r; split; [reflexivity |];
  rewrite !in_app_iff; simpl; tauto.

(** X1. A row that lacks a column of the schema is invalid, and the error
    list holds the error "missing" (Field required) for that column. *)
Theorem missing_column_invalid (row : Row) (name : string) :
  In name field_names -> row !! name = None ->
  is_valid row = false /\ In {| loc := name; err := missing |} (errors row).
Proof.
  intros Hin Hn. unfold field_names in Hin. simpl in Hin.
  destruct Hin as [<- | [<- | [<- | [<- | [<- | [<- | []]]]]]].
  - pose proof (field_missing "order_id" (str_validator 1) row Hn) as Hf. field_case Hf.
  - pose proof (field_missing "qty" (int_validator 0) row Hn) as Hf. field_case Hf.
  - pose proof (field_missing "amount" float_validator_ge0 row Hn) as Hf. field_case Hf.
  - pose proof (field_missing "currency"
      (fun v => s ← str_validator 0 v; after check_currency s) row Hn) as Hf.
    field_case Hf.
  - pose proof (field_missing "ship_country"
      (fun v => s ← str_validator 0 v; after check_country s) row Hn) as Hf.
    field_case Hf.
  - pose proof (field_missing "date"
      (fun v => s ← str_validator 0 v; after check_date_format s) row Hn) as Hf.
    field_case Hf.
Qed.

Lemma field_value {A} name (validator : PyValue -> result ErrorType A) row v :
  row !! name = Some v ->
  field name validator row =
    match validator v with
    | Ok a => Ok a
    | Err e => Err {| loc := name; err := e |}
    end.
Proof. intros Hv. unfold field. now rewrite Hv. Qed.

(** X2. An empty cell (pandas reads it as nan) in any column of the schema
    makes the row invalid, with an error for that column. *)
Theorem empty_cell_invalid (row : Row) (name : string) :
  In name field_names -> row !! name = Some (PyFloat FNan) ->
  is_valid row = false /\
  In {| loc := name;
        err := if String.eqb name "qty" then finite_number
               else if String.eqb name "amount" then greater_than_equal
               else string_type |} (errors row).
Proof.
  intros Hin Hn. unfold field_names in Hin. simpl in Hin.
  destruct Hin as [<- | [<- | [<- | [<- | [<- | [<- | []]]]]]].
  - pose proof (field_value "order_id" (str_validator 1) row _ Hn) as Hf. field_case Hf.
  - pose proof (field_value "qty" (int_validator 0) row _ Hn) as Hf. field_case Hf.
  - pose proof (field_value "amount" float_validator_ge0 row _ Hn) as Hf. field_case Hf.
  - pose proof (field_value "currency"
      (fun v => s ← str_validator 0 v; after check_currency s) row _ Hn) as Hf.
    field_case Hf.
  - pose proof (field_value "ship_country"
      (fun v => s ← str_validator 0 v; after check_country s) row _ Hn) as Hf.
    field_case Hf.
  - pose proof (field_value "date"
      (fun v => s ← str_validator 0 v; after check_date_format s) row _ Hn) as Hf.
    field_case Hf.
Qed.

Lemma str_field_value name min_length
    (check : string -> result ErrorType string) (row : Row) (s : string) :
  field name (fun v => s ← str_validator min_length v; check s) row = Ok s ->
  exists s0, row !! name = Some (PyStr s0) /\
             (min_length <= String.length s0)%nat /\ check s0 = Ok s.
Proof.
  unfold field, str_validator.
  destruct (row !! name) as [[s0 | | |] |]; try discriminate.
  destruct (Nat.ltb_spec (String.length s0) min_length); [discriminate |].
  cbn. destruct (check s0) as [a | e] eqn:Hc; [| discriminate].
  intros [= <-]. eauto.
Qed.

(** X3. A model that was built satisfies the schema and holds the text of
    the row as it was: [order_id] and [date] are the row's own text,
    [currency] is INR, [ship_country] is IN, [qty] and [amount] are not
    negative and [date] is an accepted date text. *)
Theorem model_invariants (row : Row) (order : AmazonOrder) :
  validate row = Ok order ->
  row !! "order_id" = Some (PyStr (order_id order)) /\ order_id order <> "" /\
  (0 <= qty order)%Z /\ non_negative (amount order) /\
  currency order = "INR" /\ row !! "currency" = Some (PyStr "INR") /\
  ship_country order = "IN" /\ row !! "ship_country" = Some (PyStr "IN") /\
  row !! "date" = Some (PyStr (date order)) /\ date_text (date order).
Proof.
  unfold validate.
  destruct (order_id_field row) as [a |] eqn:H1; [| intros; discriminate].
  destruct (qty_field row) as [b |] eqn:H2; [| intros; discriminate].
  destruct (amount_field row) as [c |] eqn:H3; [| intros; discriminate].
  destruct (currency_field row) as [d |] eqn:H4; [| intros; discriminate].
  destruct (ship_country_field row) as [e |] eqn:H5; [| intros; discriminate].
  destruct (date_field row) as [f |] eqn:H6; [| intros; discriminate].
  intros [= <-]. cbn [order_id qty amount currency ship_country date].
  (* order_id *)
  assert (row !! "order_id" = Some (PyStr a) /\ a <> "") as [A1 A2].
  { unfold order_id_field, field, str_validator in H1.
    destruct (row !! "order_id") as [[s | | |] |]; try discriminate.
    destruct s as [|ch s]; [discriminate |]. injection H1 as <-. now split. }
  (* qty *)
  assert (0 <= b)%Z as B.
  { unfold qty_field, field, int_validator in H2.
    destruct (row !! "qty") as [v |]; [| discriminate].
    destruct (int_lax v) as [z |]; [| discriminate]. cbn in H2.
    destruct (Z.ltb_spec z 0); [discriminate |]. injection H2 as <-. lia. }
  (* amount *)
  assert (non_negative c) as C.
  { unfold amount_field, field, float_validator_ge0 in H3.
    destruct (row !! "amount") as [v |]; [| discriminate].
    destruct (float_lax v) as [g |]; [| discriminate]. cbn in H3.
    destruct (float_ge0 g) eqn:Hg; [| discriminate]. injection H3 as <-.
    now apply float_ge0_non_negative. }
  (* currency, ship_country, date *)
  apply str_field_value in H4 as (s4 & L4 & _ & C4).
  apply str_field_value in H5 as (s5 & L5 & _ & C5).
  apply str_field_value in H6 as (s6 & L6 & _ & C6).
  unfold after, check_currency in C4. unfold after, check_country in C5.
  destruct (String.eqb_spec s4 "INR") as [-> |]; [| discriminate].
  destruct (String.eqb_spec s5 "IN") as [-> |]; [| discriminate].
  injection C4 as <-. injection C5 as <-.
  unfold after in C6. destruct (check_date_format s6) as [s6' |] eqn:Hd; [| discriminate].
  injection C6 as <-.
  assert (s6' = s6 /\ is_ok (strptime s6) = true) as [-> Hok].
  { unfold check_date_format in Hd. destruct (strptime s6); [| discriminate].
    injection Hd as <-. now split. }
  apply strptime_date_text in Hok. tauto.
Qed.

Lemma violated_length_le row : (length (violated row) <= 6)%nat.
Proof.
  rewrite violated_fields, !length_app.
  destruct (is_ok (order_id_field row)), (is_ok (qty_field row)),
    (is_ok (amount_field row)), (is_ok (currency_field row)),
    (is_ok (ship_country_field row)), (is_ok (date_field row)); simpl; lia.
Qed.

Lemma invalid_has_error row : is_valid row = false -> (1 <= length (violated row))%nat.
Proof.
  rewrite is_valid_fields, violated_fields, !length_app.
  destruct (is_ok (order_id_field row)), (is_ok (qty_field row)),
    (is_ok (amount_field row)), (is_ok (currency_field row)),
    (is_ok (ship_country_field row)), (is_ok (date_field row)); simpl;
    intros; try discriminate; lia.
Qed.

(** X4. An invalid row carries at least one and at most six errors, and
    its annotation is that count followed by " error(s)". *)
Theorem annotation_counts_errors (row : Row) :
  is_valid row = false ->
  (1 <= error_count (errors row) <= 6)%nat /\
  annotated row !! "validation_errors" =
    Some (PyStr (str_nat (error_count (errors row)) +:+ " error(s)")).
Proof.
  intros Hv. unfold error_count.
  rewrite <- (length_map loc), errors_loc_violated.
  split; [split; [now apply invalid_has_error | apply violated_length_le] |].
  unfold annotated, annotate, error_count.
  rewrite <- (length_map loc (errors row)), errors_loc_violated.
  apply lookup_insert_eq.
Qed.

(** Annotating a row touches the column validation_errors only: every
    other column keeps its value, and an annotation already there is
    replaced, not kept beside the new one. *)
Lemma annotate_frame (e e' : list ErrorDetails) (row : Row) (name : string) :
  name <> "validation_errors" ->
  annotate e row !! name = row !! name /\
  annotate e (annotate e' row) = annotate e row.
Proof.
  intros Hne. unfold annotate. split.
  - now apply lookup_insert_ne.
  - apply insert_insert_eq.
Qed.

Lemma validate_same_fields (row1 row2 : Row) :
  (forall name, In name field_names -> row1 !! name = row2 !! name) ->
  validate row1 = validate row2.
Proof.
  intros Hsame.
  unfold validate, order_id_field, qty_field, amount_field, currency_field,
    ship_country_field, date_field, field.
  rewrite !Hsame by (unfold field_names; simpl; tauto). reflexivity.
Qed.

Lemma validate_annotate e row : validate (annotate e row) = validate row.
Proof.
  apply validate_same_fields. intros name Hin.
  apply annotate_frame with (e' := e).
  intros ->. unfold field_names in Hin. simpl in Hin.
  repeat (destruct Hin as [Heq | Hin]; [discriminate Heq |]). exact Hin.
Qed.

(** X5. The annotation does not change what validation says, so every row
    of the invalid list is itself invalid, and no row is in both lists. *)
Theorem invalid_rows_stay_invalid (df : list Row) (row : Row) :
  In row (invalid_rows (run_loop df)) ->
  is_valid row = false /\ ~ In row (valid_rows (run_loop df)).
Proof.
  rewrite run_loop_invalid, run_loop_valid. intros Hin.
  apply in_map_iff in Hin as (row0 & <- & Hin0).
  apply filter_In in Hin0 as [_ Hv0]. apply negb_true_iff in Hv0.
  assert (is_valid (annotated row0) = false) as Hv.
  { unfold is_valid, annotated in *. now rewrite validate_annotate. }
  split; [assumption |]. intros Hin. apply filter_In in Hin as [_ Hv']. congruence.
Qed.

End SchemaFacts.

(** ** More about the run *)

Section RunFacts.
Context `{Runtime}.

Lemma filter_all {A} (f : A -> bool) (l : list A) :
  (forall x, In x l -> f x = true) -> List.filter f l = l.
Proof.
  induction l as [|x l IH]; intros Hall; simpl; [reflexivity |].
  rewrite (Hall x) by now left. f_equal. apply IH. intros y Hy. apply Hall. now right.
Qed.

Lemma filter_none {A} (f : A -> bool) (l : list A) :
  (forall x, In x l -> f x = false) -> List.filter f l = [].
Proof.
  induction l as [|x l IH]; intros Hall; simpl; [reflexivity |].
  rewrite (Hall x) by now left. apply IH. intros y Hy. apply Hall. now right.
Qed.

(** X6. When every row is valid, the valid list is the table itself, the
    valid file holds it (unless the table is empty), no invalid file is
    written, nothing is posted and the exit status is 0. *)
Theorem all_valid_run (env : Env) (df : list Row) :
  (forall row, In row df -> is_valid row = true) ->
  valid_rows (run_loop df) = df /\
  valid_csv (main env df) = (match df with [] => None | _ => Some df end) /\
  invalid_csv (main env df) = None /\
  posted (main env df) = None /\
  exit_code (main env df) = 0%Z.
Proof.
  intros Hall.
  assert (valid_rows (run_loop df) = df) as Hv
    by (rewrite run_loop_valid; now apply filter_all).
  assert ((0 <? invalid_count df)%nat = false) as Hi.
  { rewrite some_invalid. apply negb_false_iff. now apply forallb_forall. }
  split; [assumption |].
  rewrite main_valid_csv, main_invalid_csv, main_posted, main_exit_code, Hv, Hi.
  repeat split. now destruct df.
Qed.

(** X7. When every row of a table that has rows is invalid, no valid file
    is written, the invalid file holds every row, annotated and in the
    order of the table, the exit status is 1, and the alert is printed
    (no webhook) or posted (webhook set). *)
Theorem all_invalid_run (env : Env) (df : list Row) :
  df <> [] ->
  (forall row, In row df -> is_valid row = false) ->
  let message := alert_text (Z.of_nat (length df)) (Z.of_nat (length df)) in
  valid_csv (main env df) = None /\
  invalid_csv (main env df) = Some (List.map annotated df) /\
  exit_code (main env df) = 1%Z /\
  (SLACK_WEBHOOK_URL env = "" -> In message (stdout (main env df))) /\
  (SLACK_WEBHOOK_URL env <> "" ->
   posted (main env df) = Some (SLACK_WEBHOOK_URL env, message)).
Proof.
  intros Hne Hall message.
  assert (List.filter (fun row => negb (is_valid row)) df = df) as Hf.
  { apply filter_all. intros row Hin. now rewrite (Hall row Hin). }
  assert (invalid_rows (run_loop df) = List.map annotated df) as Hi
    by (now rewrite run_loop_invalid, Hf).
  assert (invalid_count df = length df) as Hc
    by (unfold invalid_count; now rewrite Hi, length_map).
  assert ((0 <? invalid_count df)%nat = true) as Hpos.
  { rewrite Hc. destruct df; [congruence | reflexivity]. }
  rewrite main_valid_csv, main_invalid_csv, main_exit_code, main_posted, Hpos, Hi.
  rewrite run_loop_valid, (filter_none is_valid df Hall). cbn [length Nat.ltb Nat.leb].
  repeat split.
  - intros Hurl. apply main_stdout_alert; [assumption |].
    rewrite Hc. now apply send_console.
  - intros Hurl. rewrite Hc. now apply send_webhook.
Qed.

(** X8. The three signs of failure agree: the invalid file is written
    exactly when the exit status is 1, and something is posted exactly
    when the exit status is 1 and a webhook is set. *)
Theorem failure_signals_agree (env : Env) (df : list Row) :
  (is_Some (invalid_csv (main env df)) <-> exit_code (main env df) = 1%Z) /\
  (is_Some (posted (main env df)) <->
   exit_code (main env df) = 1%Z /\ SLACK_WEBHOOK_URL env <> "").
Proof.
  rewrite main_invalid_csv, main_exit_code, main_posted.
  destruct (0 <? invalid_count df)%nat.
  - split; [split; [reflexivity | now eexists] |].
    destruct (String.eqb_spec (SLACK_WEBHOOK_URL env) "") as [Hurl | Hurl].
    + destruct (send_console env (Z.of_nat (invalid_count df))
                  (Z.of_nat (length df)) Hurl) as [_ ->].
      split; [intros [x Hx]; discriminate | tauto].
    + destruct (send_webhook env (Z.of_nat (invalid_count df))
                  (Z.of_nat (length df)) Hurl) as [-> _].
      split; [auto | now eexists].
  - split; (split; [intros [x Hx]; discriminate |]).
    + discriminate.
    + intros [Hx _]. discriminate Hx.
Qed.

(** X9. Validating two tables one after the other is validating them
    apart: the lists of the joined table are the lists of the parts, end
    to end, and it fails exactly when one of the parts fails. *)
Theorem run_loop_app (env : Env) (df1 df2 : list Row) :
  valid_rows (run_loop (df1 ++ df2)) =
    valid_rows (run_loop df1) ++ valid_rows (run_loop df2) /\
  invalid_rows (run_loop (df1 ++ df2)) =
    invalid_rows (run_loop df1) ++ invalid_rows (run_loop df2) /\
  exit_code (main env (df1 ++ df2)) =
    Z.max (exit_code (main env df1)) (exit_code (main env df2)).
Proof.
  rewrite !run_loop_valid, !run_loop_invalid, !List.filter_app, !map_app.
  repeat split.
  rewrite !main_exit_code, !some_invalid, forallb_app.
  now destruct (forallb is_valid df1), (forallb is_valid df2).
Qed.

End RunFacts.

(** ** More about the date check *)

Section DateFacts.
Context `{Runtime}.

Lemma date_text_groups s :
  date_text s ->
  exists tm td ty,
    lang re_m tm /\ lang re_d td /\ lang re_y ty /\
    s = tm +:+ "-" +:+ td +:+ "-" +:+ ty.
Proof.
  intros (m & d & y & tm & td & ty & (Rm & Rd & Ry) & Wm & Wd & Wy & ->).
  pose proof (days_in_month_le (full_year y) m) as Hle.
  destruct (month_written_lang m tm Rm Wm) as [Lm _].
  destruct (day_written_lang d td ltac:(lia) Wd) as [Ld _].
  destruct (year_written_lang y ty Wy) as [Ly _].
  exists tm, td, ty. auto.
Qed.

(** X10. Nothing may follow the date: an accepted text followed by
    anything at all (a blank, a time, two more digits of the year) is
    rejected with the format message. *)
Theorem trailing_text_rejected (s extra : string) :
  date_text s -> extra <> "" ->
  check_date_format (s +:+ extra) = Err "Date must be in format MM-DD-YY".
Proof.
  intros Hd Hne. apply date_text_groups in Hd as (tm & td & ty & Lm & Ld & Ly & ->).
  assert (format_match ((tm +:+ "-" +:+ td +:+ "-" +:+ ty) +:+ extra)
          = Some (tm, td, ty, extra)) as Hm.
  { apply format_match_iff. repeat split; try assumption.
    now rewrite !append_assoc. }
  unfold check_date_format, strptime. rewrite Hm.
  apply String.eqb_neq in Hne. now rewrite Hne.
Qed.

(** X11. The 29th of February is accepted exactly for the years that are
    leap years, which between 1969 and 2068 are the multiples of four. *)
Theorem feb_29_leap_years (y : nat) :
  (y < 100)%nat ->
  is_ok (check_date_format ("02-29-" +:+ two_digits y)) = (y mod 4 =? 0)%nat.
Proof.
  intros Hy.
  do 100 (destruct y as [|y]; [vm_compute; reflexivity |]). lia.
Qed.

(** *** Counting characters *)

Lemma fold_append_app (l1 l2 : list string) :
  fold_right String.append "" (l1 ++ l2) =
  fold_right String.append "" l1 +:+ fold_right String.append "" l2.
Proof.
  induction l1 as [|x l1 IH]; [reflexivity |].
  simpl. now rewrite IH, append_assoc.
Qed.

Lemma chars_app_aux : forall n a b,
  (String.length a <= n)%nat -> whole_chars a = true ->
  chars (a +:+ b) = chars a ++ chars b.
Proof.
  induction n as [|n IH]; intros a b Hl Hw.
  - destruct a; [reflexivity | simpl in Hl; lia].
  - destruct a as [|c a']; [reflexivity |].
    apply String.eqb_eq in Hw.
    unfold chars in Hw at 1. cbn [String.length chars_fuel] in Hw.
    destruct (next_char (String c a')) as [[ch r] |] eqn:Hn; [| discriminate Hw].
    pose proof (next_char_shorter _ _ _ Hn) as Hs.
    change (String.length (String c a')) with (S (String.length a')) in Hs, Hl.
    apply next_char_split in Hn as (E & Hc & _).
    assert (chars (String c a') = ch :: chars r) as Hca.
    { rewrite E. now apply chars_cons. }
    rewrite (chars_fuel_enough _ (String.length r) r) in Hw by lia.
    fold (chars r) in Hw. cbn [fold_right] in Hw.
    rewrite E in Hw. apply String.app_inj in Hw.
    rewrite Hca, E, append_assoc, (chars_cons ch (r +:+ b) Hc).
    rewrite (IH r b); [reflexivity | lia |].
    now apply String.eqb_eq.
Qed.

(** The characters of two texts put together. *)
Lemma chars_app a b : whole_chars a = true -> chars (a +:+ b) = chars a ++ chars b.
Proof. apply (chars_app_aux (String.length a)). lia. Qed.

Lemma whole_chars_app a b :
  whole_chars a = true -> whole_chars b = true -> whole_chars (a +:+ b) = true.
Proof.
  intros Ha Hb. unfold whole_chars. rewrite (chars_app a b Ha), fold_append_app.
  apply String.eqb_eq in Ha, Hb. unfold whole_chars in *.
  apply String.eqb_eq. now rewrite Ha, Hb.
Qed.

Lemma digit_char_whole ch v : digit_char ch v -> whole_chars ch = true /\ chars ch = [ch].
Proof.
  intros [Hc _]. pose proof (chars_single ch Hc) as Hs.
  split; [| assumption]. unfold whole_chars. rewrite Hs. simpl.
  rewrite append_nil_r. apply String.eqb_refl.
Qed.

Lemma re_m_chars t : lang re_m t -> one_or_two t = true.
Proof. apply enum_forallb; vm_compute; reflexivity. Qed.

Lemma re_d_chars t : lang re_d t -> one_or_two t = true.
Proof.
  intros L. apply re_d_cases in L as [L | L].
  - revert L. apply enum_forallb; vm_compute; reflexivity.
  - destruct L as (a & b & -> & (c & Hc & ->) & (v & Hb)).
    destruct (digit_char_whole b v Hb) as [Wb Cb].
    apply in_range_between in Hc. vm_compute in Hc. unfold one_or_two.
    destruct Hc as [<- | [<- | []]].
    + rewrite (whole_chars_app "1" b eq_refl Wb), (chars_app "1" b eq_refl), Cb.
      reflexivity.
    + rewrite (whole_chars_app "2" b eq_refl Wb), (chars_app "2" b eq_refl), Cb.
      reflexivity.
Qed.

Lemma date_text_chars s : date_text s -> (6 <= length (chars s) <= 8)%nat.
Proof.
  intros Hd. apply date_text_groups in Hd as (tm & td & ty & Lm & Ld & Ly & ->).
  apply re_m_chars in Lm. apply re_d_chars in Ld.
  unfold one_or_two in Lm, Ld.
  apply andb_true_iff in Lm as [Lm M2]. apply andb_true_iff in Lm as [Wm M1].
  apply andb_true_iff in Ld as [Ld D2]. apply andb_true_iff in Ld as [Wd D1].
  apply Nat.leb_le in M1, M2, D1, D2.
  destruct Ly as (a & b & -> & (va & Ha) & (vb & Hb)).
  destruct (digit_char_whole a va Ha) as [Wa Ca].
  destruct (digit_char_whole b vb Hb) as [Wb Cb].
  rewrite (chars_app tm _ Wm), (chars_app "-" _ eq_refl), (chars_app td _ Wd),
    (chars_app "-" _ eq_refl), (chars_app a b Wa), Ca, Cb.
  rewrite !length_app. change (length (chars "-")) with 1. simpl. lia.
Qed.

(** X12. [check_date_format] hands back the very text it was given, and
    only texts of six to eight characters get through. *)
Theorem check_date_format_returns_input (value v : string) :
  check_date_format value = Ok v ->
  v = value /\ (6 <= length (chars value) <= 8)%nat.
Proof.
  unfold check_date_format. destruct (strptime value) as [d |] eqn:Hs; [| discriminate].
  intros [= <-]. split; [reflexivity |].
  apply date_text_chars, strptime_date_text. now rewrite Hs.
Qed.

End DateFacts.

(** ** What is printed *)

Section PrintFacts.
Context `{Runtime}.

Lemma loop_body_printed st item :
  printed (loop_body st item) = printed st ++ row_lines item.
Proof.
  destruct item as [index row].
  unfold loop_body, row_lines, is_valid, errors.
  now destruct (validate row).
Qed.

Lemma fold_printed items : forall st,
  printed (fold_left loop_body items st) = printed st ++ flat_map row_lines items.
Proof.
  induction items as [|item items IH]; intros st.
  - simpl. now rewrite app_nil_r.
  - cbn [fold_left flat_map]. now rewrite IH, loop_body_printed, <- app_assoc.
Qed.

Lemma run_loop_printed df :
  printed (run_loop df) = loading df ++ flat_map row_lines (iterrows df).
Proof. unfold run_loop, validate_rows. now rewrite fold_printed. Qed.

Lemma combine_seq_lookup (df : list Row) : forall start i row,
  df !! i = Some row -> In (start + i, row) (combine (seq start (length df)) df).
Proof.
  induction df as [|row0 df IH]; intros start i row Hi; [discriminate Hi |].
  destruct i as [|i]; cbn [length seq combine].
  - injection Hi as ->. rewrite Nat.add_0_r. now left.
  - right. replace (start + S i) with (S start + i) by lia. now apply IH.
Qed.

(** The printed text, piece by piece. *)
Lemma main_stdout env df :
  let valid := valid_rows (run_loop df) in
  let invalid := invalid_rows (run_loop df) in
  stdout (main env df) =
    printed (run_loop df) ++
    [nl +:+ rule; "📊 Validation Summary"; rule;
     "Total rows:   " +:+ str_nat (length df);
     "Valid rows:   " +:+ str_nat (length valid);
     "Invalid rows: " +:+ str_nat (length invalid);
     rule;
     nl +:+ rule; "💾 Saving Results"; rule] ++
    [if (0 <? length valid)%nat
     then "✅ Saved " +:+ str_nat (length valid) +:+ " valid rows to 'valid_rows.csv'"
     else "⚠️  No valid rows to save"] ++
    [if (0 <? length invalid)%nat
     then "❌ Saved " +:+ str_nat (length invalid) +:+ " invalid rows to 'invalid_rows.csv'"
     else "✅ No invalid rows found"] ++
    [rule] ++
    (if (0 <? length invalid)%nat
     then fst (send_slack_notification env (Z.of_nat (length invalid)) (Z.of_nat (length df)))
     else []) ++
    [nl +:+ rule] ++
    (if (0 <? length invalid)%nat
     then ["❌ VALIDATION FAILED";
           "   Invalid rows: " +:+ str_nat (length invalid);
           "   Check invalid_rows.csv for details";
           rule]
     else ["✅ VALIDATION PASSED";
           "   All " +:+ str_nat (length valid) +:+ " rows are valid";
           rule]).
Proof.
  intros valid invalid. unfold main. fold valid. fold invalid.
  destruct (0 <? length valid)%nat; destruct (0 <? length invalid)%nat;
    try destruct (send_slack_notification _ _ _) as [lines sent];
    cbn [stdout fst]; rewrite <- ?app_assoc; reflexivity.
Qed.

Lemma main_stdout_printed env df line :
  In line (printed (run_loop df)) -> In line (stdout (main env df)).
Proof. intros Hin. rewrite main_stdout. apply in_app_iff. now left. Qed.

(** X13. Every row gets its status line, numbered from 1: a valid row is
    printed with its order id, an invalid row with one line for each of
    its errors (field and message). *)
Theorem row_status_lines (env : Env) (df : list Row) (i : nat) (row : Row) :
  df !! i = Some row ->
  (is_valid row = true ->
   exists s, row !! "order_id" = Some (PyStr s) /\
     In ("✅ Row " +:+ str_nat (i + 1) +:+ ": Valid - " +:+ s) (stdout (main env df))) /\
  (is_valid row = false ->
   In ("❌ Row " +:+ str_nat (i + 1) +:+ ": Invalid") (stdout (main env df)) /\
   forall e, In e (errors row) ->
     In ("   • " +:+ loc e +:+ ": " +:+ msg e) (stdout (main env df))).
Proof.
  intros Hi.
  assert (forall line, In line (row_lines (i, row)) -> In line (stdout (main env df))) as Hl.
  { intros line Hin. apply main_stdout_printed. rewrite run_loop_printed.
    apply in_app_iff. right. apply in_flat_map. exists (i, row).
    split; [| assumption]. apply (combine_seq_lookup df 0 i row Hi). }
  unfold row_lines in Hl. split; intros Hv; rewrite Hv in Hl.
  - assert (order_id_holds row) as (s & Hs & _).
    { apply order_id_field_ok. rewrite is_valid_fields in Hv.
      now destruct (is_ok (order_id_field row)). }
    exists s. split; [assumption |]. apply Hl.
    unfold order_id_text. rewrite Hs. now left.
  - split; [apply Hl; now left |].
    intros e He. apply Hl. right. apply in_map_iff. exists e. now split.
Qed.

(** X14. The summary is always printed with the three counts, and the
    run closes with the verdict that matches the exit status and with a
    rule as its last line. *)
Theorem summary_and_verdict (env : Env) (df : list Row) :
  In ("Total rows:   " +:+ str_nat (length df)) (stdout (main env df)) /\
  In ("Valid rows:   " +:+ str_nat (length (List.filter is_valid df)))
     (stdout (main env df)) /\
  In ("Invalid rows: " +:+ str_nat (length df - length (List.filter is_valid df)))
     (stdout (main env df)) /\
  In (if (exit_code (main env df) =? 0)%Z
      then "✅ VALIDATION PASSED" else "❌ VALIDATION FAILED") (stdout (main env df)) /\
  List.last (stdout (main env df)) "" = rule.
Proof.
  pose proof (partition_counts_aux df) as Hc.
  rewrite main_exit_code. unfold invalid_count.
  rewrite main_stdout. rewrite run_loop_valid in *.
  replace (length df - length (List.filter is_valid df))
    with (length (invalid_rows (run_loop df))) by lia.
  repeat split.
  - rewrite !in_app_iff. right. left. simpl. tauto.
  - rewrite !in_app_iff. right. left. simpl. tauto.
  - rewrite !in_app_iff. right. left. simpl. tauto.
  - rewrite !in_app_iff. do 7 right.
    destruct (0 <? length (invalid_rows (run_loop df)))%nat; now left.
  - rewrite !app_assoc.
    destruct (0 <? length (invalid_rows (run_loop df)))%nat;
      match goal with
      | |- List.last (?l ++ [?a; ?b; ?c; ?d]) _ = _ =>
          change (l ++ [a; b; c; d]) with (l ++ [a; b; c] ++ [d]);
          rewrite app_assoc; apply last_last
      | |- List.last (?l ++ [?a; ?b; ?c]) _ = _ =>
          change (l ++ [a; b; c]) with (l ++ [a; b] ++ [c]);
          rewrite app_assoc; apply last_last
      end.
Qed.

Lemma status_line_not_alert x invalid total : nl +:+ x <> alert_text invalid total.
Proof. unfold nl, alert_text. intros E. discriminate E. Qed.

(** X15. With a webhook set, [send_slack_notification] posts the alert to
    that address and prints one status line only, never the alert text;
    after a response 200 the line reports success. *)
Theorem webhook_one_status_line (env : Env) (invalid total : Z) :
  SLACK_WEBHOOK_URL env <> "" ->
  snd (send_slack_notification env invalid total) =
    Some (SLACK_WEBHOOK_URL env, alert_text invalid total) /\
  (exists line, fst (send_slack_notification env invalid total) = [line] /\
                line <> alert_text invalid total) /\
  (post env (SLACK_WEBHOOK_URL env) (alert_text invalid total) = Response 200 ->
   fst (send_slack_notification env invalid total) =
     [nl +:+ "✅ Slack notification sent successfully!"]).
Proof.
  intros Hurl. unfold send_slack_notification.
  apply String.eqb_neq in Hurl. rewrite Hurl.
  destruct (post env _ _) as [code | e].
  - destruct (Z.eqb_spec code 200) as [-> | Hne]; cbn [fst snd].
    + split; [reflexivity |]. split; [| reflexivity].
      eexists. split; [reflexivity | apply status_line_not_alert].
    + split; [reflexivity |]. split; [| intros [= ->]; congruence].
      eexists. split; [reflexivity | apply status_line_not_alert].
  - cbn [fst snd]. split; [reflexivity |]. split; [| discriminate].
    eexists. split; [reflexivity | apply status_line_not_alert].
Qed.

End PrintFacts.

(** The row whose year is written in Arabic-Indic digits is valid, and a
    table made of it passes. *)
Example arabic_indic_year_valid :
  is_valid (H := example_runtime) row_A3 = true /\
  exit_code (main (H := example_runtime) console_env [row_A3]) = 0%Z.
Proof. split; vm_compute; reflexivity. Qed.

(** An integer beyond 53 bits is stored as the nearest double. *)
Example nearest_double_ties :
  nearest_double (2 ^ 53 + 1) = (2 ^ 53)%Z /\
  nearest_double (2 ^ 53 + 3) = (2 ^ 53 + 4)%Z /\
  nearest_double (- (2 ^ 53 + 3)) = (- (2 ^ 53 + 4))%Z /\
  nearest_double 100 = 100%Z.
Proof. repeat split; vm_compute; reflexivity. Qed.

(** ** The further theorems at concrete rows *)

Lemma missing_column_invalid_witness :
  is_valid (H := example_runtime) (delete "qty" row_A1) = false /\
  In {| loc := "qty"; err := missing |} (errors (H := example_runtime) (delete "qty" row_A1)).
Proof.
  apply (missing_column_invalid (H := example_runtime) (delete "qty" row_A1) "qty").
  - simpl. tauto.
  - vm_compute. reflexivity.
Defined.

Lemma empty_cell_invalid_witness :
  is_valid (H := example_runtime) (<["amount" := PyFloat FNan]> row_A1) = false /\
  In {| loc := "amount"; err := greater_than_equal |}
     (errors (H := example_runtime) (<["amount" := PyFloat FNan]> row_A1)).
Proof.
  apply (empty_cell_invalid (H := example_runtime)
           (<["amount" := PyFloat FNan]> row_A1) "amount").
  - simpl. tauto.
  - vm_compute. reflexivity.
Defined.

Lemma model_invariants_witness :
  row_A3 !! "order_id" = Some (PyStr "A3") /\ "A3" <> "" /\
  (0 <= 1)%Z /\ non_negative (FNum 10) /\
  "INR" = "INR" /\ row_A3 !! "currency" = Some (PyStr "INR") /\
  "IN" = "IN" /\ row_A3 !! "ship_country" = Some (PyStr "IN") /\
  row_A3 !! "date" = Some (PyStr "01-15-٢٤") /\
  date_text (H := example_runtime) "01-15-٢٤".
Proof.
  apply (model_invariants (H := example_runtime) row_A3
           {| order_id := "A3"; qty := 1; amount := FNum 10;
              currency := "INR"; ship_country := "IN"; date := "01-15-٢٤" |}).
  vm_compute. reflexivity.
Defined.

Lemma annotation_counts_errors_witness :
  (1 <= error_count (errors (H := example_runtime) row_A2) <= 6)%nat /\
  annotated (H := example_runtime) row_A2 !! "validation_errors" =
    Some (PyStr (str_nat (error_count (errors (H := example_runtime) row_A2)) +:+ " error(s)")).
Proof.
  apply (annotation_counts_errors (H := example_runtime) row_A2).
  vm_compute. reflexivity.
Defined.

Lemma invalid_rows_stay_invalid_witness :
  is_valid (H := example_runtime) (annotated (H := example_runtime) row_A2) = false /\
  ~ In (annotated (H := example_runtime) row_A2)
       (valid_rows (run_loop (H := example_runtime) [row_A1; row_A2])).
Proof.
  apply (invalid_rows_stay_invalid (H := example_runtime) [row_A1; row_A2]).
  rewrite run_loop_invalid. vm_compute. left. reflexivity.
Defined.

Lemma all_valid_run_witness :
  valid_rows (run_loop (H := example_runtime) [row_A1]) = [row_A1] /\
  valid_csv (main (H := example_runtime) console_env [row_A1]) = Some [row_A1] /\
  invalid_csv (main (H := example_runtime) console_env [row_A1]) = None /\
  posted (main (H := example_runtime) console_env [row_A1]) = None /\
  exit_code (main (H := example_runtime) console_env [row_A1]) = 0%Z.
Proof.
  apply (all_valid_run (H := example_runtime) console_env [row_A1]).
  intros row [<- | []]. vm_compute. reflexivity.
Defined.

Lemma all_invalid_run_witness :
  valid_csv (main (H := example_runtime) (webhook_env (Response 500)) [row_A2]) = None /\
  invalid_csv (main (H := example_runtime) (webhook_env (Response 500)) [row_A2]) =
    Some [annotated (H := example_runtime) row_A2] /\
  exit_code (main (H := example_runtime) (webhook_env (Response 500)) [row_A2]) = 1%Z.
Proof.
  destruct (all_invalid_run (H := example_runtime) (webhook_env (Response 500)) [row_A2])
    as (Hv & Hi & Hx & _).
  - discriminate.
  - intros row [<- | []]. vm_compute. reflexivity.
  - auto.
Defined.

Lemma trailing_text_rejected_witness :
  check_date_format (H := example_runtime) "01-15-2024" =
    Err "Date must be in format MM-DD-YY".
Proof.
  apply (trailing_text_rejected (H := example_runtime) "01-15-20" "24").
  - apply strptime_date_text. vm_compute. reflexivity.
  - discriminate.
Defined.

Lemma feb_29_leap_years_witness :
  is_ok (check_date_format (H := example_runtime) "02-29-23") = false.
Proof. apply (feb_29_leap_years (H := example_runtime) 23). lia. Defined.

Lemma check_date_format_returns_input_witness :
  "01-15-٢٤" = "01-15-٢٤" /\ (6 <= length (chars "01-15-٢٤") <= 8)%nat.
Proof.
  apply (check_date_format_returns_input (H := example_runtime) "01-15-٢٤" "01-15-٢٤").
  vm_compute. reflexivity.
Defined.

Lemma row_status_lines_witness :
  In ("❌ Row 2: Invalid")
     (stdout (main (H := example_runtime) console_env [row_A1; row_A2])).
Proof.
  apply (row_status_lines (H := example_runtime) console_env [row_A1; row_A2] 1 row_A2).
  - reflexivity.
  - vm_compute. reflexivity.
Defined.

Lemma webhook_one_status_line_witness :
  snd (send_slack_notification (webhook_env (Response 500)) 1 2) =
    Some ("https://hooks.example/T0", alert_text 1 2).
Proof.
  apply (webhook_one_status_line (webhook_env (Response 500)) 1 2). discriminate.
Defined.
